(** * Litestream Windows service front end ([cmd/litestream/main_windows.go])

    The file embeds the three functions of [main_windows.go]:

    - [Execute], the [svc.Handler] of the service: an event loop that
      never leaves its [for { select { ... } }];
    - [Write], the [io.Writer] adapter over the event log;
    - [runWindowsService], which installs the event log as the
      destination of the standard logger around [svc.Run].

    The functions talk to their environment only through calls (channel
    operations, the event log, the replicate command, the [log] and
    [svc] packages).  Each such call is an event of an interaction tree;
    [run] executes a tree against a [world] that answers the calls and
    records them in order. *)

From Stdlib Require Import ZArith List String Ascii Bool Lia.
From Stdlib.Strings Require Import Byte.
From Stdlib Require Import DecimalString DecimalPos DecimalZ Morphisms.
From ITree Require Import ITree ITreeFacts.
From Paco Require Import paco.
Import ListNotations ITreeNotations.
Local Open Scope itree_scope.
Local Open Scope string_scope.
Local Open Scope list_scope.
Local Open Scope Z_scope.

(* ================================================================== *)
(** ** The packages the file imports                                   *)
(* ================================================================== *)

(** [golang.org/x/sys/windows/svc]: the constants are the Windows
    [SERVICE_*] values; all of them are [uint32] in Go. *)
Module svc.

(** [svc.State] *)
Definition Stopped : Z := 1.
Definition StartPending : Z := 2.
Definition StopPending : Z := 3.
Definition Running : Z := 4.
Definition ContinuePending : Z := 5.
Definition PausePending : Z := 6.
Definition Paused : Z := 7.

(** [svc.Cmd] *)
Definition Stop : Z := 1.
Definition Pause : Z := 2.
Definition Continue : Z := 3.
Definition Interrogate : Z := 4.
Definition Shutdown : Z := 5.

(** [svc.Accepted], a bit mask *)
Definition AcceptStop : Z := 1.
Definition AcceptPauseAndContinue : Z := 2.
Definition AcceptShutdown : Z := 4.

(** [svc.Status]; a composite literal leaves the fields it does not
    name at zero. *)
Record Status := {
  State : Z;
  Accepts : Z;
  CheckPoint : Z;
  WaitHint : Z;
  ProcessId : Z;
  Win32ExitCode : Z;
  ServiceSpecificExitCode : Z
}.

(** [svc.ChangeRequest] *)
Record ChangeRequest := {
  Cmd : Z;
  EventType : Z;
  EventData : Z;
  CurrentStatus : Status;
  Context : Z
}.

(** Which control codes a mask lets the service control manager
    deliver.  Pause and Continue share the one bit
    [SERVICE_ACCEPT_PAUSE_CONTINUE]; Interrogate is not governed by
    the mask. *)
Definition accepted (mask cmd : Z) : bool :=
  if cmd =? Stop then negb (Z.land mask AcceptStop =? 0)
  else if cmd =? Shutdown then negb (Z.land mask AcceptShutdown =? 0)
  else if cmd =? Pause then negb (Z.land mask AcceptPauseAndContinue =? 0)
  else if cmd =? Continue then negb (Z.land mask AcceptPauseAndContinue =? 0)
  else false.

End svc.

(** [golang.org/x/sys/windows/svc/eventlog]: the event types. *)
Module eventlog.
Definition Error : Z := 1.
Definition Warning : Z := 2.
Definition Info : Z := 4.
End eventlog.

Import svc.

(** A Go [error]: [None] is [nil], [Some msg] an error whose [Error()]
    text is [msg]. *)
Definition error := option string.

(** The destinations the standard logger can have. *)
Inductive Writer :=
| os_Stderr
| eventlogWriter_elog          (* elog converted to eventlogWriter *)
| other_Writer (n : nat).      (* any other io.Writer *)

(* ================================================================== *)
(** ** [fmt] with the verb [%d]                                        *)
(* ================================================================== *)

Module fmt.

(** [%d] of an integer. *)
Definition d (z : Z) : string := NilZero.string_of_int (Z.to_int z).

(** [%d] of a struct prints the fields in braces, separated by
    spaces, each with the same verb. *)
Definition d_Status (s : Status) : string :=
  ("{" ++ d (State s) ++ " " ++ d (Accepts s) ++ " " ++ d (CheckPoint s)
       ++ " " ++ d (WaitHint s) ++ " " ++ d (ProcessId s)
       ++ " " ++ d (Win32ExitCode s)
       ++ " " ++ d (ServiceSpecificExitCode s) ++ "}")%string.

Definition d_ChangeRequest (r : ChangeRequest) : string :=
  ("{" ++ d (Cmd r) ++ " " ++ d (EventType r) ++ " " ++ d (EventData r)
       ++ " " ++ d_Status (CurrentStatus r) ++ " " ++ d (Context r) ++ "}")%string.

(** [%s] of an error is its text; of [nil] it is [%!s(<nil>)]. *)
Definition s (e : error) : string :=
  match e with Some msg => msg | None => "%!s(<nil>)" end.

End fmt.

(* ================================================================== *)
(** ** Calls to the environment                                        *)
(* ================================================================== *)

(** One constructor per call the file makes; the index is the type of
    what the call gives back.  A replicate command is named by the
    number of the [NewReplicateCommand] call that made it. *)
Variant sysE : Type -> Type :=
| chan_recv : sysE ChangeRequest               (* <-changeReqCh *)
| chan_send (s : Status) : sysE unit           (* statusCh <- s *)
| elog_Info (eid : Z) (msg : string) : sysE error
| elog_Error (eid : Z) (msg : string) : sysE error
| elog_Close : sysE error
| NewReplicateCommand : sysE nat
| c_Run (c : nat) : sysE unit                  (* c.Run(s.ctx) *)
| c_Close (c : nat) : sysE unit                (* c.Close() *)
| eventlog_Open (name : string) : sysE error
| eventlog_InstallAsEventCreate (name : string) (types : Z) : sysE error
| log_SetOutput (w : Writer) : sysE unit
| svc_Run (name : string) : sysE error.

(** The record of a call, as kept in the history. *)
Inductive event :=
| EvRecv (r : ChangeRequest)
| EvSend (s : Status)
| EvInfo (eid : Z) (msg : string)
| EvError (eid : Z) (msg : string)
| EvElogClose
| EvNew (c : nat)
| EvRun (c : nat)
| EvClose (c : nat)
| EvOpen (name : string)
| EvInstall (name : string) (types : Z)
| EvSetOutput (w : Writer)
| EvSvcRun (name : string).

(** The environment of the process.  [answer] gives the result of a
    fallible call of a library from the history at the time of the call;
    [svc_Run_returns] says whether [svc.Run] comes back at all. *)
Record world := {
  inbox : list ChangeRequest;   (* what the host still delivers on changeReqCh *)
  fresh : nat;                  (* name of the next replicate command *)
  output : Writer;              (* destination of the standard logger *)
  answer : list event -> error;
  svc_Run_returns : bool;
  history : list event          (* the calls made so far, newest first *)
}.

Definition record (ev : event) (w : world) : world :=
  {| inbox := inbox w; fresh := fresh w; output := output w;
     answer := answer w; svc_Run_returns := svc_Run_returns w;
     history := ev :: history w |}.

(** The host hands over [r], the head of the inbox; [rs] stays. *)
Definition receive (r : ChangeRequest) (rs : list ChangeRequest) (w : world) : world :=
  {| inbox := rs; fresh := fresh w; output := output w;
     answer := answer w; svc_Run_returns := svc_Run_returns w;
     history := EvRecv r :: history w |}.

(** A new replicate command, named [fresh w]. *)
Definition allocate (w : world) : world :=
  {| inbox := inbox w; fresh := S (fresh w); output := output w;
     answer := answer w; svc_Run_returns := svc_Run_returns w;
     history := EvNew (fresh w) :: history w |}.

(** [log.SetOutput(d)] *)
Definition set_output (d : Writer) (w : world) : world :=
  {| inbox := inbox w; fresh := fresh w; output := d;
     answer := answer w; svc_Run_returns := svc_Run_returns w;
     history := EvSetOutput d :: history w |}.

(** The calls in the order they were made. *)
Definition trace (w : world) : list event := rev (history w).

(** [handle e w] performs the call [e] in [w]: [None] when the call
    does not come back (a receive on a channel nobody sends on, a
    [svc.Run] that stays in the dispatcher). *)
Definition handle {T} (e : sysE T) (w : world) : option (T * world) :=
  match e in sysE T return option (T * world) with
  | chan_recv =>
      match inbox w with
      | [] => None
      | r :: rs => Some (r, receive r rs w)
      end
  | chan_send s => Some (tt, record (EvSend s) w)
  | elog_Info eid msg => Some (answer w (history w), record (EvInfo eid msg) w)
  | elog_Error eid msg => Some (answer w (history w), record (EvError eid msg) w)
  | elog_Close => Some (answer w (history w), record EvElogClose w)
  | NewReplicateCommand => Some (fresh w, allocate w)
  | c_Run c => Some (tt, record (EvRun c) w)
  | c_Close c => Some (tt, record (EvClose c) w)
  | eventlog_Open name => Some (answer w (history w), record (EvOpen name) w)
  | eventlog_InstallAsEventCreate name types =>
      Some (answer w (history w), record (EvInstall name types) w)
  | log_SetOutput d => Some (tt, set_output d w)
  | svc_Run name =>
      if svc_Run_returns w
      then Some (answer w (history w), record (EvSvcRun name) w)
      else None
  end.

(** How an execution stands after a number of steps. *)
Inductive result (R : Type) :=
| Returned (r : R) (w : world)   (* the function has returned [r] *)
| Blocked (w : world)            (* it waits in a call that does not come back *)
| Pending (w : world).           (* it is still executing *)
Arguments Returned {R} r w.
Arguments Blocked {R} w.
Arguments Pending {R} w.

Definition world_of {R} (r : result R) : world :=
  match r with Returned _ w | Blocked w | Pending w => w end.

Definition has_returned {R} (r : result R) : bool :=
  match r with Returned _ _ => true | _ => false end.

(** [run fuel t w]: at most [fuel] steps of [t] in [w]. *)
Fixpoint run {R} (fuel : nat) (t : itree sysE R) (w : world) : result R :=
  match fuel with
  | O => Pending w
  | S n =>
      match observe t with
      | RetF r => Returned r w
      | TauF t' => run n t' w
      | VisF e k =>
          match handle e w with
          | None => Blocked w
          | Some (x, w') => run n (k x) w'
          end
      end
  end.

(* ================================================================== *)
(** ** [main_windows.go]                                               *)
(* ================================================================== *)

(** [const serviceName = "Litestream"] *)
Definition serviceName : string := "Litestream".

(** [svc.Status{State: st, Accepts: acc}] *)
Definition Status_lit (st acc : Z) : Status :=
  {| State := st; Accepts := acc; CheckPoint := 0; WaitHint := 0;
     ProcessId := 0; Win32ExitCode := 0; ServiceSpecificExitCode := 0 |}.

(** [const accepts = svc.AcceptStop | svc.AcceptShutdown | svc.AcceptPauseAndContinue] *)
Definition accepts : Z :=
  Z.lor (Z.lor AcceptStop AcceptShutdown) AcceptPauseAndContinue.

(** The [switch changeReq.Cmd] of the loop, with the local variable
    [c].  [inl c'] leaves the [switch] and goes round the loop again
    with [c'] for [c]; [inr (ssec, errno)] would be a [return], and the
    source has none. *)
Definition Execute_switch (changeReq : ChangeRequest) (c : nat)
  : itree sysE (nat + bool * Z) :=
  if Cmd changeReq =? Interrogate then
    ITree.trigger (elog_Info 1 "Litestream service interrograted");;
    ITree.trigger (chan_send (CurrentStatus changeReq));;
    Ret (inl c)
  else if Cmd changeReq =? Stop then
    ITree.trigger (elog_Info 1 "Litestream service stopped");;
    ITree.trigger (c_Close c);;
    ITree.trigger (chan_send (Status_lit StopPending 0));;
    Ret (inl c)
  else if Cmd changeReq =? Shutdown then
    ITree.trigger (elog_Info 1 "Litestream service shutting down");;
    ITree.trigger (c_Close c);;
    ITree.trigger (chan_send (Status_lit StopPending 0));;
    Ret (inl c)
  else if Cmd changeReq =? Pause then
    ITree.trigger (elog_Info 1 "Litestream service paused");;
    ITree.trigger (c_Close c);;
    ITree.trigger (chan_send (Status_lit Paused accepts));;
    Ret (inl c)
  else if Cmd changeReq =? Continue then
    ITree.trigger (elog_Info 1 "Litestream service continuing");;
    ITree.trigger (c_Close c);;
    c' <- ITree.trigger NewReplicateCommand;;
    ITree.trigger (c_Run c');;
    ITree.trigger (chan_send (Status_lit Running accepts));;
    Ret (inl c')
  else
    ITree.trigger
      (elog_Error 1 ("unexpected control request #" ++ fmt.d_ChangeRequest changeReq)%string);;
    Ret (inl c).

(** One turn of [for { select { case changeReq := <-changeReqCh: ... } }]. *)
Definition Execute_body (c : nat) : itree sysE (nat + bool * Z) :=
  changeReq <- ITree.trigger chan_recv;;
  Execute_switch changeReq c.

(** The loop of [Execute], entered with the command in [c]. *)
Definition Execute_loop (c : nat) : itree sysE (bool * Z) :=
  ITree.iter Execute_body c.

(** What [ITree.iter] does with the outcome of a turn: the next turn,
    or the return. *)
Definition Execute_next (lr : nat + bool * Z) : itree sysE (bool * Z) :=
  match lr with
  | inl c' => Tau (Execute_loop c')
  | inr v => Ret v
  end.

(** [func (s *windowsService) Execute(args, changeReqCh, statusCh) (ssec bool, errno uint32)] *)
Definition Execute : itree sysE (bool * Z) :=
  ITree.trigger (chan_send (Status_lit StartPending 0));;
  c <- ITree.trigger NewReplicateCommand;;
  ITree.trigger (c_Run c);;
  ITree.trigger (chan_send (Status_lit Running accepts));;
  Execute_loop c.

(** [func (w *eventlogWriter) Write(p []byte) (n int, err error)] *)
Definition Write (p : list byte) : itree sysE (Z * error) :=
  err <- ITree.trigger (elog_Info 1 (string_of_list_byte p));;
  Ret (0, err).

(** The calls a function has deferred, the last one first. *)
Definition deferred := list (itree sysE unit).

Fixpoint run_deferred (ds : deferred) : itree sysE unit :=
  match ds with
  | [] => Ret tt
  | d :: ds' => d;; run_deferred ds'
  end.

Section RunWindowsService.

(** [var errStop] is declared in another file of package [main]. *)
Variable errStop : error.

(** The body of [runWindowsService] up to its [return]s: the value
    returned and the calls deferred by then. *)
Definition runWindowsService_body : itree sysE (error * deferred) :=
  err <- ITree.trigger (eventlog_Open serviceName);;
  match err with
  | Some _ => Ret (err, [])
  | None =>
      let ds := [ITree.trigger elog_Close;; Ret tt] in
      ITree.trigger (log_SetOutput eventlogWriter_elog);;
      let ds := ITree.trigger (log_SetOutput os_Stderr) :: ds in
      err <- ITree.trigger
               (eventlog_InstallAsEventCreate serviceName
                  (Z.lor (Z.lor eventlog.Error eventlog.Warning) eventlog.Info));;
      match err with
      | Some _ => Ret (Some ("cannot install event log: " ++ fmt.s err)%string, ds)
      | None =>
          ITree.trigger (elog_Info 1 "Litestream service starting");;
          err <- ITree.trigger (svc_Run serviceName);;
          match err with
          | Some _ =>
              ITree.trigger
                (elog_Error 1 ("Litestream service failed: " ++ fmt.s err)%string);;
              Ret (errStop, ds)
          | None =>
              ITree.trigger (elog_Info 1 "Litestream service exited");;
              Ret (None, ds)
          end
      end
  end.

(** [func runWindowsService(ctx context.Context) error] *)
Definition runWindowsService : itree sysE error :=
  '(err, ds) <- runWindowsService_body;;
  run_deferred ds;;
  Ret err.

End RunWindowsService.

(* ================================================================== *)
(** ** Reading a history                                               *)
(* ================================================================== *)

(** The codes the [switch] has a [case] for. *)
Definition known (cmd : Z) : Prop :=
  cmd = Interrogate \/ cmd = Stop \/ cmd = Shutdown \/ cmd = Pause \/ cmd = Continue.

(** The status reports among the calls [tr], in the order of [tr]. *)
Fixpoint reports (tr : list event) : list Status :=
  match tr with
  | [] => []
  | EvSend s :: tr' => s :: reports tr'
  | _ :: tr' => reports tr'
  end.

(** The requests read among the calls [tr]. *)
Fixpoint reads (tr : list event) : list ChangeRequest :=
  match tr with
  | [] => []
  | EvRecv r :: tr' => r :: reads tr'
  | _ :: tr' => reads tr'
  end.

(** The calls on replicate commands among [tr]. *)
Definition worker_call (ev : event) : bool :=
  match ev with
  | EvNew _ | EvRun _ | EvClose _ => true
  | _ => false
  end.

Definition is_Run (ev : event) : bool :=
  match ev with EvRun _ => true | _ => false end.

Definition is_Close (ev : event) : bool :=
  match ev with EvClose _ => true | _ => false end.

Definition starts (tr : list event) : nat := List.length (filter is_Run tr).
Definition closes (tr : list event) : nat := List.length (filter is_Close tr).

(** [a] comes before [b] in [tr]. *)
Definition before (a b : event) (tr : list event) : Prop :=
  exists l1 l2 l3, tr = l1 ++ a :: l2 ++ b :: l3.

(** The replicate commands that are live after the history [h] (newest
    call first): made or run, and not closed since. *)
Definition add_live (c : nat) (l : list nat) : list nat :=
  if existsb (Nat.eqb c) l then l else c :: l.

Definition drop_live (c : nat) (l : list nat) : list nat :=
  filter (fun x => negb (Nat.eqb x c)) l.

Fixpoint live (h : list event) : list nat :=
  match h with
  | [] => []
  | ev :: h' =>
      match ev with
      | EvNew c | EvRun c => add_live c (live h')
      | EvClose c => drop_live c (live h')
      | _ => live h'
      end
  end.

(** Every command of [h] is made while none is live, and run while no
    other one is. *)
Fixpoint exclusive (h : list event) : Prop :=
  match h with
  | [] => True
  | ev :: h' =>
      match ev with
      | EvNew _ => live h' = []
      | EvRun c => live h' = [c]
      | _ => True
      end /\ exclusive h'
  end.

(** The state of the loop between two turns: the command in [c] is
    the only one that can be live. *)
Definition at_loop_head (c : nat) (h : list event) : Prop :=
  exclusive h /\ (live h = [] \/ live h = [c]).

Definition one_at_most (h : list event) : Prop :=
  exclusive h /\ (List.length (live h) <= 1)%nat.

(** *** Worlds and requests to run the code on *)

Definition initial (reqs : list ChangeRequest) : world :=
  {| inbox := reqs; fresh := 0%nat; output := os_Stderr;
     answer := fun _ => None; svc_Run_returns := true; history := [] |}.

Definition req (cmd : Z) (cur : Status) : ChangeRequest :=
  {| Cmd := cmd; EventType := 0; EventData := 0; CurrentStatus := cur; Context := 0 |}.

(** The function has returned or waits in a call that does not come
    back. *)
Definition at_rest {R} (r : result R) : bool :=
  match r with Pending _ => false | _ => true end.

(** The status last reported in the history [h] (newest call first). *)
Fixpoint last_report (h : list event) : option Status :=
  match h with
  | [] => None
  | EvSend s :: _ => Some s
  | _ :: h' => last_report h'
  end.

Definition Status_eqb (a b : Status) : bool :=
  (State a =? State b) && (Accepts a =? Accepts b)
  && (CheckPoint a =? CheckPoint b) && (WaitHint a =? WaitHint b)
  && (ProcessId a =? ProcessId b) && (Win32ExitCode a =? Win32ExitCode b)
  && (ServiceSpecificExitCode a =? ServiceSpecificExitCode b).

(** Every request read in [h] carries, as [CurrentStatus], the status
    reported last before it: what the dispatcher of package [svc] puts
    there. *)
Fixpoint from_dispatcher (h : list event) : bool :=
  match h with
  | [] => true
  | EvRecv r :: h' =>
      match last_report h' with
      | Some s => Status_eqb s (CurrentStatus r)
      | None => false
      end && from_dispatcher h'
  | _ :: h' => from_dispatcher h'
  end.

(** The requests Pause, Interrogate, Continue, Stop, as the dispatcher
    delivers them after the report of [Running]. *)
Definition pause_resume_stop : list ChangeRequest :=
  [ req Pause (Status_lit Running accepts);
    req Interrogate (Status_lit Paused accepts);
    req Continue (Status_lit Paused accepts);
    req Stop (Status_lit Running accepts) ].

Definition stop_then_pause : list ChangeRequest :=
  [ req Stop (Status_lit Running accepts);
    req Pause (Status_lit StopPending 0) ].

(** A world whose logger writes somewhere else than to [os.Stderr]. *)
Definition logging_elsewhere : world :=
  {| inbox := []; fresh := 0%nat; output := other_Writer 0;
     answer := fun _ => None; svc_Run_returns := true; history := [] |}.

(** A world whose event log cannot be written to. *)
Definition closed_sink : world :=
  {| inbox := []; fresh := 0%nat; output := eventlogWriter_elog;
     answer := fun _ => Some "The handle is invalid.";
     svc_Run_returns := true; history := [] |}.

Definition is_SetOutput (ev : event) : bool :=
  match ev with EvSetOutput _ => true | _ => false end.

(* ================================================================== *)
(** ** The calls of the loop, request by request                       *)
(* ================================================================== *)

(** The branch of the [switch] a code takes, tried in the order of the
    [case]s. *)
Inductive branch :=
| OnInterrogate | OnStop | OnShutdown | OnPause | OnContinue | OnDefault.

Definition branch_of (cmd : Z) : branch :=
  if cmd =? Interrogate then OnInterrogate
  else if cmd =? Stop then OnStop
  else if cmd =? Shutdown then OnShutdown
  else if cmd =? Pause then OnPause
  else if cmd =? Continue then OnContinue
  else OnDefault.

(** The calls of the turn that reads [r], in their order, when the loop
    variable is [c] and the next command to be made is [f]. *)
Definition turn_trace (r : ChangeRequest) (c f : nat) : list event :=
  EvRecv r ::
  match branch_of (Cmd r) with
  | OnInterrogate =>
      [ EvInfo 1 "Litestream service interrograted"; EvSend (CurrentStatus r) ]
  | OnStop =>
      [ EvInfo 1 "Litestream service stopped"; EvClose c;
        EvSend (Status_lit StopPending 0) ]
  | OnShutdown =>
      [ EvInfo 1 "Litestream service shutting down"; EvClose c;
        EvSend (Status_lit StopPending 0) ]
  | OnPause =>
      [ EvInfo 1 "Litestream service paused"; EvClose c;
        EvSend (Status_lit Paused accepts) ]
  | OnContinue =>
      [ EvInfo 1 "Litestream service continuing"; EvClose c; EvNew f; EvRun f;
        EvSend (Status_lit Running accepts) ]
  | OnDefault =>
      [ EvError 1 ("unexpected control request #" ++ fmt.d_ChangeRequest r)%string ]
  end.

(** The loop variable and the next command to be made after that turn. *)
Definition turn_next (r : ChangeRequest) (c f : nat) : nat * nat :=
  match branch_of (Cmd r) with
  | OnContinue => (f, S f)
  | _ => (c, f)
  end.

(** The calls of the loop on the requests [rs]. *)
Fixpoint loop_trace (rs : list ChangeRequest) (c f : nat) : list event :=
  match rs with
  | [] => []
  | r :: rs' =>
      turn_trace r c f
      ++ loop_trace rs' (fst (turn_next r c f)) (snd (turn_next r c f))
  end.

(** The calls of [Execute] when the host delivers [rs] and the next
    command to be made is [f]. *)
Definition Execute_trace (rs : list ChangeRequest) (f : nat) : list event :=
  [ EvSend (Status_lit StartPending 0); EvNew f; EvRun f;
    EvSend (Status_lit Running accepts) ]
  ++ loop_trace rs f (S f).

(** The steps that are enough for [Execute] to read the requests [rs]
    and come to wait for the next one. *)
Definition enough (rs : list ChangeRequest) : nat := 7 * List.length rs + 5.

(** The status the loop reports for a request, if any. *)
Definition reply (r : ChangeRequest) : list Status :=
  match branch_of (Cmd r) with
  | OnInterrogate => [CurrentStatus r]
  | OnStop | OnShutdown => [Status_lit StopPending 0]
  | OnPause => [Status_lit Paused accepts]
  | OnContinue => [Status_lit Running accepts]
  | OnDefault => []
  end.

(** The requests whose branch closes the command, and those whose
    branch makes and runs a new one. *)
Definition closing (r : ChangeRequest) : bool :=
  match branch_of (Cmd r) with
  | OnStop | OnShutdown | OnPause | OnContinue => true
  | _ => false
  end.

Definition starting (r : ChangeRequest) : bool :=
  match branch_of (Cmd r) with
  | OnContinue => true
  | _ => false
  end.

(** The requests the [switch] has no [case] for. *)
Definition defaulting (r : ChangeRequest) : bool :=
  match branch_of (Cmd r) with
  | OnDefault => true
  | _ => false
  end.

(** Whether a command is left live by the requests [rs], when [b] says
    whether one was live before them. *)
Fixpoint left_live (rs : list ChangeRequest) (b : bool) : bool :=
  match rs with
  | [] => b
  | r :: rs' => left_live rs' (if closing r then starting r else b)
  end.

(** The calls to the event log among [tr]. *)
Definition is_elog (ev : event) : bool :=
  match ev with EvInfo _ _ | EvError _ _ => true | _ => false end.

Definition is_elog_Error (ev : event) : bool :=
  match ev with EvError _ _ => true | _ => false end.

(** The calls [Execute] can make: on its channels, to the event log with
    event 1, and on replicate commands. *)
Definition Execute_call (ev : event) : Prop :=
  match ev with
  | EvRecv _ | EvSend _ | EvNew _ | EvRun _ | EvClose _ => True
  | EvInfo eid _ | EvError eid _ => eid = 1
  | _ => False
  end.

(** The destination of the logger after the calls [tr], made when it
    was [d]. *)
Fixpoint output_after (tr : list event) (d : Writer) : Writer :=
  match tr with
  | [] => d
  | EvSetOutput d' :: tr' => output_after tr' d'
  | _ :: tr' => output_after tr' d
  end.

(** What the libraries answer to [runWindowsService] in [w]: to
    [eventlog.Open], then to [eventlog.InstallAsEventCreate], then to
    [svc.Run], each asked after the calls made before it. *)
Definition answer_Open (w : world) : error := answer w (history w).

Definition answer_Install (w : world) : error :=
  answer w (EvSetOutput eventlogWriter_elog :: EvOpen serviceName :: history w).

Definition answer_Run (w : world) : error :=
  answer w (EvInfo 1 "Litestream service starting"
            :: EvInstall serviceName 7
            :: EvSetOutput eventlogWriter_elog :: EvOpen serviceName :: history w).

(** Every command run or closed among the calls [tr] is the command
    made last before; [made] is the command made last before [tr], if
    any. *)
Fixpoint made_last (made : option nat) (tr : list event) : Prop :=
  match tr with
  | [] => True
  | EvNew c :: tr' => made_last (Some c) tr'
  | EvRun c :: tr' => made = Some c /\ made_last made tr'
  | EvClose c :: tr' => made = Some c /\ made_last made tr'
  | _ :: tr' => made_last made tr'
  end.

(** *** Reading a decimal numeral *)

(** The number a text stands for when read as a decimal numeral: digits
    only, at least one, with a minus sign before them for a negative
    number.  It is defined on the characters, apart from [fmt.d]; the
    digits [0] to [9] have the codes 48 to 57. *)
Definition digit_value (a : ascii) : option Z :=
  let k := Z.of_nat (nat_of_ascii a) - 48 in
  if (0 <=? k) && (k <=? 9) then Some k else None.

Fixpoint digits_value (s : string) (acc : Z) : option Z :=
  match s with
  | EmptyString => Some acc
  | String a s' =>
      match digit_value a with
      | Some k => digits_value s' (10 * acc + k)
      | None => None
      end
  end.

Definition decimal_value (s : string) : option Z :=
  match s with
  | EmptyString => None
  | String a s' =>
      if Ascii.eqb a "-"
      then match s' with
           | EmptyString => None
           | _ => option_map Z.opp (digits_value s' 0)
           end
      else digits_value s 0
  end.

(* ================================================================== *)
(** ** Running trees                                                   *)
(* ================================================================== *)

(** [run] does not tell bisimilar trees apart. *)
Lemma run_eq_itree {R} (n : nat) :
  forall (t1 t2 : itree sysE R) (w : world), t1 ≅ t2 -> run n t1 w = run n t2 w.
Proof.
  induction n as [|n IH]; intros t1 t2 w H; [reflexivity|].
  simpl. punfold H. red in H.
  inversion H; subst; try discriminate.
  - reflexivity.
  - pclearbot. apply IH. assumption.
  - destruct (handle e w) as [[x w']|]; [|reflexivity].
    apply IH. specialize (REL x). pclearbot. exact REL.
Qed.

#[export] Instance run_Proper {R} (n : nat) :
  Proper (eq_itree eq ==> eq ==> eq) (@run R n).
Proof. intros t1 t2 Ht w1 w2 ->. apply run_eq_itree, Ht. Qed.

Lemma run_Ret {R} (n : nat) (r : R) (w : world) :
  run (S n) (Ret r) w = Returned r w.
Proof. reflexivity. Qed.

Lemma run_Tau {R} (n : nat) (t : itree sysE R) (w : world) :
  run (S n) (Tau t) w = run n t w.
Proof. reflexivity. Qed.

Lemma run_call {T R} (n : nat) (e : sysE T) (k : T -> itree sysE R) (w : world) :
  run (S n) (x <- ITree.trigger e;; k x) w =
  match handle e w with
  | None => Blocked w
  | Some (x, w') => run n (k x) w'
  end.
Proof.
  rewrite bind_trigger. reflexivity.
Qed.

Lemma run_loop (n : nat) (c : nat) (w : world) :
  run (S n) (Execute_loop c) w =
  match inbox w with
  | [] => Blocked w
  | r :: rs => run n (lr <- Execute_switch r c;; Execute_next lr) (receive r rs w)
  end.
Proof.
  unfold Execute_loop. rewrite unfold_iter. unfold Execute_body.
  rewrite bind_bind, run_call. cbn [handle].
  destruct (inbox w); reflexivity.
Qed.

(** A call adds itself to the history and nothing else. *)
Lemma handle_history {T} (e : sysE T) (w w' : world) (x : T) :
  handle e w = Some (x, w') -> exists ev, history w' = ev :: history w.
Proof.
  destruct e; cbn [handle]; intros H;
    try (injection H as _ <-; eexists; reflexivity).
  - destruct (inbox w); [discriminate|].
    injection H as _ <-. eexists; reflexivity.
  - destruct (svc_Run_returns w); [|discriminate].
    injection H as _ <-. eexists; reflexivity.
Qed.

Lemma run_history {R} (n : nat) :
  forall (t : itree sysE R) (w : world),
  exists l, history (world_of (run n t w)) = l ++ history w.
Proof.
  induction n as [|n IH]; intros t w; [exists []; reflexivity|].
  simpl. destruct (observe t) as [r|t'|X e k].
  - exists []; reflexivity.
  - apply IH.
  - destruct (handle e w) as [[x w']|] eqn:E; [|exists []; reflexivity].
    destruct (handle_history e w w' x E) as [ev Hev].
    destruct (IH (k x) w') as [l Hl].
    exists (l ++ [ev]). rewrite Hl, Hev, <- app_assoc. reflexivity.
Qed.

Lemma run_trace {R} (n : nat) (t : itree sysE R) (w : world) :
  exists l, trace (world_of (run n t w)) = trace w ++ l.
Proof.
  destruct (run_history n t w) as [l H].
  exists (rev l). unfold trace. rewrite H, rev_app_distr. reflexivity.
Qed.

(** Once a function has returned, or waits for good, more fuel changes
    nothing. *)
Lemma run_at_rest {R} (n : nat) :
  forall (t : itree sysE R) (w : world) (m : nat),
  at_rest (run n t w) = true -> (n <= m)%nat -> run m t w = run n t w.
Proof.
  induction n as [|n IH]; intros t w m H Hle; [discriminate|].
  destruct m as [|m]; [lia|]. simpl in *.
  destruct (observe t) as [r|t'|X e k].
  - reflexivity.
  - apply IH; [assumption|lia].
  - destruct (handle e w) as [[x w']|]; [|reflexivity].
    apply IH; [assumption|lia].
Qed.

Lemma reads_app (l1 l2 : list event) : reads (l1 ++ l2) = reads l1 ++ reads l2.
Proof.
  induction l1 as [|ev l1 IH]; [reflexivity|].
  destruct ev; simpl; rewrite IH; reflexivity.
Qed.

Lemma reports_app (l1 l2 : list event) : reports (l1 ++ l2) = reports l1 ++ reports l2.
Proof.
  induction l1 as [|ev l1 IH]; [reflexivity|].
  destruct ev; simpl; rewrite IH; reflexivity.
Qed.

Lemma trace_record (ev : event) (w : world) : trace (record ev w) = trace w ++ [ev].
Proof. reflexivity. Qed.

Lemma trace_receive r rs (w : world) : trace (receive r rs w) = trace w ++ [EvRecv r].
Proof. reflexivity. Qed.

Lemma trace_allocate (w : world) : trace (allocate w) = trace w ++ [EvNew (fresh w)].
Proof. reflexivity. Qed.

Lemma trace_set_output d (w : world) : trace (set_output d w) = trace w ++ [EvSetOutput d].
Proof. reflexivity. Qed.

(** Writes the trace of a world built by calls as the trace of the
    world before them followed by the calls. *)
Ltac spell_trace :=
  repeat first [ rewrite trace_record | rewrite trace_receive
               | rewrite trace_allocate | rewrite trace_set_output ];
  rewrite <- ?app_assoc; cbn [app fresh record receive allocate set_output].

(** *** The branches of the [switch] *)

Section Switch.

Variables (changeReq : ChangeRequest) (c : nat).

Lemma switch_Interrogate :
  Cmd changeReq = Interrogate ->
  Execute_switch changeReq c =
  (ITree.trigger (elog_Info 1 "Litestream service interrograted");;
   ITree.trigger (chan_send (CurrentStatus changeReq));;
   Ret (inl c)).
Proof. intros H. unfold Execute_switch. rewrite H. reflexivity. Qed.

Lemma switch_Stop :
  Cmd changeReq = Stop ->
  Execute_switch changeReq c =
  (ITree.trigger (elog_Info 1 "Litestream service stopped");;
   ITree.trigger (c_Close c);;
   ITree.trigger (chan_send (Status_lit StopPending 0));;
   Ret (inl c)).
Proof. intros H. unfold Execute_switch. rewrite H. reflexivity. Qed.

Lemma switch_Shutdown :
  Cmd changeReq = Shutdown ->
  Execute_switch changeReq c =
  (ITree.trigger (elog_Info 1 "Litestream service shutting down");;
   ITree.trigger (c_Close c);;
   ITree.trigger (chan_send (Status_lit StopPending 0));;
   Ret (inl c)).
Proof. intros H. unfold Execute_switch. rewrite H. reflexivity. Qed.

Lemma switch_Pause :
  Cmd changeReq = Pause ->
  Execute_switch changeReq c =
  (ITree.trigger (elog_Info 1 "Litestream service paused");;
   ITree.trigger (c_Close c);;
   ITree.trigger (chan_send (Status_lit Paused accepts));;
   Ret (inl c)).
Proof. intros H. unfold Execute_switch. rewrite H. reflexivity. Qed.

Lemma switch_Continue :
  Cmd changeReq = Continue ->
  Execute_switch changeReq c =
  (ITree.trigger (elog_Info 1 "Litestream service continuing");;
   ITree.trigger (c_Close c);;
   c' <- ITree.trigger NewReplicateCommand;;
   ITree.trigger (c_Run c');;
   ITree.trigger (chan_send (Status_lit Running accepts));;
   Ret (inl c')).
Proof. intros H. unfold Execute_switch. rewrite H. reflexivity. Qed.

Lemma switch_default :
  ~ known (Cmd changeReq) ->
  Execute_switch changeReq c =
  (ITree.trigger
     (elog_Error 1 ("unexpected control request #" ++ fmt.d_ChangeRequest changeReq)%string);;
   Ret (inl c)).
Proof.
  unfold known. intros H. unfold Execute_switch.
  repeat match goal with
         | |- context [?a =? ?b] =>
             destruct (Z.eqb_spec a b) as [E|_]; [exfalso; apply H; tauto|]
         end.
  reflexivity.
Qed.

Lemma known_dec : known (Cmd changeReq) \/ ~ known (Cmd changeReq).
Proof. unfold known. lia. Qed.

End Switch.

(** *** One turn of the loop, branch by branch *)

Section Turn.

Variables (n c : nat) (w : world) (r : ChangeRequest) (rs : list ChangeRequest).
Hypothesis Hin : inbox w = r :: rs.

Lemma turn_Interrogate :
  Cmd r = Interrogate ->
  run (4 + n) (Execute_loop c) w =
  run n (Execute_loop c)
    (record (EvSend (CurrentStatus r))
       (record (EvInfo 1 "Litestream service interrograted") (receive r rs w))).
Proof.
  intros H. cbn [Nat.add]. rewrite run_loop, Hin, (switch_Interrogate _ _ H).
  reflexivity.
Qed.

Lemma turn_Stop :
  Cmd r = Stop ->
  run (5 + n) (Execute_loop c) w =
  run n (Execute_loop c)
    (record (EvSend (Status_lit StopPending 0))
       (record (EvClose c)
          (record (EvInfo 1 "Litestream service stopped") (receive r rs w)))).
Proof.
  intros H. cbn [Nat.add]. rewrite run_loop, Hin, (switch_Stop _ _ H).
  reflexivity.
Qed.

Lemma turn_Shutdown :
  Cmd r = Shutdown ->
  run (5 + n) (Execute_loop c) w =
  run n (Execute_loop c)
    (record (EvSend (Status_lit StopPending 0))
       (record (EvClose c)
          (record (EvInfo 1 "Litestream service shutting down") (receive r rs w)))).
Proof.
  intros H. cbn [Nat.add]. rewrite run_loop, Hin, (switch_Shutdown _ _ H).
  reflexivity.
Qed.

Lemma turn_Pause :
  Cmd r = Pause ->
  run (5 + n) (Execute_loop c) w =
  run n (Execute_loop c)
    (record (EvSend (Status_lit Paused accepts))
       (record (EvClose c)
          (record (EvInfo 1 "Litestream service paused") (receive r rs w)))).
Proof.
  intros H. cbn [Nat.add]. rewrite run_loop, Hin, (switch_Pause _ _ H).
  reflexivity.
Qed.

Lemma turn_Continue :
  Cmd r = Continue ->
  run (7 + n) (Execute_loop c) w =
  run n (Execute_loop (fresh w))
    (record (EvSend (Status_lit Running accepts))
       (record (EvRun (fresh w))
          (allocate
             (record (EvClose c)
                (record (EvInfo 1 "Litestream service continuing")
                   (receive r rs w)))))).
Proof.
  intros H. cbn [Nat.add]. rewrite run_loop, Hin, (switch_Continue _ _ H).
  reflexivity.
Qed.

Lemma turn_default :
  ~ known (Cmd r) ->
  run (3 + n) (Execute_loop c) w =
  run n (Execute_loop c)
    (record (EvError 1 ("unexpected control request #" ++ fmt.d_ChangeRequest r)%string)
       (receive r rs w)).
Proof.
  intros H. cbn [Nat.add]. rewrite run_loop, Hin, (switch_default _ _ H).
  reflexivity.
Qed.

End Turn.

(** What the masks let through: [accepts] lets Stop, Shutdown, Pause and
    Continue through; the mask 0 nothing. *)
Lemma accepted_accepts (cmd : Z) :
  accepted accepts cmd = true <->
  cmd = Stop \/ cmd = Shutdown \/ cmd = Pause \/ cmd = Continue.
Proof.
  unfold accepted, Stop, Shutdown, Pause, Continue.
  repeat match goal with
         | |- context [cmd =? ?k] => destruct (Z.eqb_spec cmd k)
         end; subst; cbn; split; intros; try discriminate; try lia; auto.
Qed.

Lemma accepted_none (cmd : Z) : accepted 0 cmd = false.
Proof.
  unfold accepted. cbn [Z.land].
  repeat match goal with |- context [if ?b then _ else _] => destruct b end;
    reflexivity.
Qed.

(* ================================================================== *)
(** ** The worker                                                      *)
(* ================================================================== *)

Arguments Execute_loop : simpl never.

Lemma exclusive_split (later earlier : list event) (ev : event) :
  exclusive (later ++ ev :: earlier) ->
  match ev with
  | EvNew _ => live earlier = []
  | EvRun c => live earlier = [c]
  | _ => True
  end.
Proof.
  induction later as [|x later IH]; simpl.
  - intros [H _]. exact H.
  - intros [_ H]. apply IH, H.
Qed.

Lemma drop_live_self (c : nat) : drop_live c [c] = [].
Proof. unfold drop_live. simpl. rewrite Nat.eqb_refl. reflexivity. Qed.

Lemma add_live_self (c : nat) : add_live c [c] = [c].
Proof. unfold add_live. simpl. rewrite Nat.eqb_refl. reflexivity. Qed.

(** Settles [one_at_most] and [at_loop_head] of a history that extends
    one whose live commands are known. *)
Ltac settle Hx Hl :=
  unfold one_at_most, at_loop_head;
  cbn [history fresh record receive allocate world_of exclusive live];
  rewrite ?Hl;
  repeat (progress (rewrite ?drop_live_self, ?add_live_self;
                    cbn [drop_live add_live filter existsb negb orb]));
  cbn [List.length];
  repeat split; auto; try lia.

(** One step of [run] when the fuel is a variable: either the fuel is
    spent, and [fin] has to settle the state reached, or the step is
    taken.  It stops at the head of the loop. *)
Ltac tick_by fin :=
  match goal with
  | |- context [run ?n ?t _] =>
      is_var n;
      lazymatch t with
      | Execute_loop _ => fail
      | _ => destruct n as [|n]; [cbn; solve [fin] | cbn]
      end
  end.

Ltac tick Hx Hl := tick_by ltac:(settle Hx Hl).

(** The six ways through the [switch]. *)
Ltac by_case r c :=
  let H := fresh "Hcmd" in
  destruct (known_dec r) as [[H|[H|[H|[H|H]]]]|H];
  [ rewrite (switch_Interrogate _ c H)
  | rewrite (switch_Stop _ c H)
  | rewrite (switch_Shutdown _ c H)
  | rewrite (switch_Pause _ c H)
  | rewrite (switch_Continue _ c H)
  | rewrite (switch_default _ c H) ].

Lemma loop_one_at_most (n : nat) :
  forall c w, at_loop_head c (history w) ->
  one_at_most (history (world_of (run n (Execute_loop c) w))).
Proof.
  induction n as [n IH] using lt_wf_ind. intros c w [Hx Hl].
  destruct n as [|n]; [destruct Hl as [Hl|Hl]; cbn; solve [settle Hx Hl]|].
  rewrite run_loop. destruct (inbox w) as [|r rs] eqn:Hin;
    [destruct Hl as [Hl|Hl]; cbn; solve [settle Hx Hl]|].
  by_case r c; destruct Hl as [Hl|Hl];
    repeat tick Hx Hl;
    (apply IH; [lia | solve [settle Hx Hl]]).
Qed.


Lemma run_Execute (n : nat) (w : world) :
  run (4 + n) Execute w =
  run n (Execute_loop (fresh w))
    (record (EvSend (Status_lit Running accepts))
       (record (EvRun (fresh w))
          (allocate (record (EvSend (Status_lit StartPending 0)) w)))).
Proof.
  unfold Execute. cbn [Nat.add].
  do 4 (rewrite run_call; cbn [handle]).
  reflexivity.
Qed.

Lemma Execute_one_at_most (n : nat) (w : world) :
  history w = [] ->
  one_at_most (history (world_of (run n Execute w))).
Proof.
  intros H0.
  assert (Hx : exclusive (history w)) by (rewrite H0; exact I).
  assert (Hl : live (history w) = []) by (rewrite H0; reflexivity).
  do 4 (destruct n as [|n]; [cbn; solve [settle Hx Hl]|]).
  change (S (S (S (S n)))) with (4 + n)%nat. rewrite run_Execute.
  apply loop_one_at_most. settle Hx Hl.
Qed.

Lemma add_live_keeps (x c : nat) (l : list nat) : In c l -> In c (add_live x l).
Proof.
  unfold add_live. destruct (existsb (Nat.eqb x) l); [auto|]. intros H. right. exact H.
Qed.

Lemma add_live_In (c : nat) (l : list nat) : In c (add_live c l).
Proof.
  unfold add_live. destruct (existsb (Nat.eqb c) l) eqn:E; [|left; reflexivity].
  apply existsb_exists in E. destruct E as (y & Hy & Eq).
  apply Nat.eqb_eq in Eq. subst y. exact Hy.
Qed.

Lemma drop_live_keeps (x c : nat) (l : list nat) :
  x <> c -> In c l -> In c (drop_live x l).
Proof.
  intros Hne H. unfold drop_live. apply filter_In. split; [exact H|].
  apply negb_true_iff, Nat.eqb_neq. auto.
Qed.

(** A command that has been run is live until it is closed. *)
Lemma run_live_until_closed (c : nat) (mid old : list event) :
  In c (live (mid ++ EvRun c :: old)) \/ In (EvClose c) mid.
Proof.
  induction mid as [|ev mid IH]; [left; simpl; apply add_live_In|].
  destruct IH as [IH|IH]; [|right; right; exact IH].
  destruct ev; simpl; try (left; exact IH);
    try (left; apply add_live_keeps; exact IH).
  destruct (Nat.eq_dec c0 c) as [->|Hne].
  - right. left. reflexivity.
  - left. apply drop_live_keeps; assumption.
Qed.

(** C5. Whatever requests arrive and however far the execution of
    [Execute] has got, at most one replicate command is live; a command
    is made only when none is live, so that every command run before
    has been closed by then; and the command run is the one just made. *)
Theorem Execute_at_most_one_live (n : nat) (w : world) :
  history w = [] ->
  let h := history (world_of (run n Execute w)) in
  (List.length (live h) <= 1)%nat /\
  (forall later c earlier, h = later ++ EvNew c :: earlier -> live earlier = []) /\
  (forall later c' mid c old,
     h = later ++ EvNew c' :: mid ++ EvRun c :: old -> In (EvClose c) mid) /\
  (forall later c earlier, h = later ++ EvRun c :: earlier -> live earlier = [c]).
Proof.
  intros H0 h. destruct (Execute_one_at_most n w H0) as [Hx Hlen].
  fold h in Hx, Hlen. split; [exact Hlen|].
  assert (Hnew : forall later c earlier,
             h = later ++ EvNew c :: earlier -> live earlier = []).
  { intros later c earlier E. rewrite E in Hx.
    exact (exclusive_split later earlier (EvNew c) Hx). }
  split; [exact Hnew|]. split.
  - intros later c' mid c old E.
    destruct (run_live_until_closed c mid old) as [Hin|Hin]; [|exact Hin].
    rewrite (Hnew later c' _ E) in Hin. destruct Hin.
  - intros later c earlier E. rewrite E in Hx.
    exact (exclusive_split later earlier (EvRun c) Hx).
Qed.

Lemma Execute_at_most_one_live_witness :
  let h := history (world_of (run 26 Execute (initial pause_resume_stop))) in
  (List.length (live h) <= 1)%nat /\
  (forall later c earlier, h = later ++ EvNew c :: earlier -> live earlier = []) /\
  (forall later c' mid c old,
     h = later ++ EvNew c' :: mid ++ EvRun c :: old -> In (EvClose c) mid) /\
  (forall later c earlier, h = later ++ EvRun c :: earlier -> live earlier = [c]).
Proof.
  apply (Execute_at_most_one_live 26 (initial pause_resume_stop)). reflexivity.
Defined.

(* ================================================================== *)
(** ** The loop has no way out                                         *)
(* ================================================================== *)

Lemma loop_never_returns (n : nat) :
  forall c w, has_returned (run n (Execute_loop c) w) = false.
Proof.
  induction n as [n IH] using lt_wf_ind. intros c w.
  destruct n as [|n]; [reflexivity|].
  rewrite run_loop. destruct (inbox w) as [|r rs]; [reflexivity|].
  by_case r c; repeat tick_by ltac:(reflexivity); (apply IH; lia).
Qed.

Lemma Execute_never_returns (n : nat) (w : world) :
  has_returned (run n Execute w) = false.
Proof.
  do 4 (destruct n as [|n]; [reflexivity|]).
  change (S (S (S (S n)))) with (4 + n)%nat. rewrite run_Execute.
  apply loop_never_returns.
Qed.

(** The loop reads every request the host delivers, whatever the
    requests before it were, and then waits for the next one. *)
Lemma loop_reads_all (rs : list ChangeRequest) :
  forall c w m, inbox w = rs -> (7 * List.length rs + 1 <= m)%nat ->
  exists w', run m (Execute_loop c) w = Blocked w' /\ inbox w' = [] /\
             reads (trace w') = reads (trace w) ++ rs.
Proof.
  induction rs as [|r rs IH]; intros c w m Hin Hm.
  - destruct m as [|m]; [simpl in Hm; lia|].
    exists w. rewrite run_loop, Hin, app_nil_r. auto.
  - cbn [List.length] in Hm.
    assert (Hreads : forall w1 (l : result (bool * Z)), reads (trace w1) = reads (trace w) ++ [r] ->
              (exists w', l = Blocked w' /\ inbox w' = [] /\
                          reads (trace w') = reads (trace w1) ++ rs) ->
              exists w', l = Blocked w' /\ inbox w' = [] /\
                         reads (trace w') = reads (trace w) ++ r :: rs).
    { intros w1 l E (w' & ? & ? & E'). exists w'. repeat split; auto.
      rewrite E', E, <- app_assoc. reflexivity. }
    destruct (known_dec r) as [[H|[H|[H|[H|H]]]]|H];
      [ replace m with (4 + (m - 4))%nat by lia;
        rewrite (turn_Interrogate _ c w r rs Hin H)
      | replace m with (5 + (m - 5))%nat by lia;
        rewrite (turn_Stop _ c w r rs Hin H)
      | replace m with (5 + (m - 5))%nat by lia;
        rewrite (turn_Shutdown _ c w r rs Hin H)
      | replace m with (5 + (m - 5))%nat by lia;
        rewrite (turn_Pause _ c w r rs Hin H)
      | replace m with (7 + (m - 7))%nat by lia;
        rewrite (turn_Continue _ c w r rs Hin H)
      | replace m with (3 + (m - 3))%nat by lia;
        rewrite (turn_default _ c w r rs Hin H) ];
      (eapply Hreads; [|apply IH; [reflexivity|lia]]);
      spell_trace; rewrite reads_app; reflexivity.
Qed.

(** C1 (the code does not do it). After [Stop] has been handled, with
    the command closed and [StopPending] reported, [Execute] has not
    returned: it reads the next request, here a [Pause], handles it, and
    waits for another one. *)
Theorem Execute_reads_on_after_Stop :
  let r := run 15 Execute (initial stop_then_pause) in
  r = Blocked (world_of r) /\
  inbox (world_of r) = [] /\
  trace (world_of r) =
    [ EvSend (Status_lit StartPending 0); EvNew 0; EvRun 0;
      EvSend (Status_lit Running accepts);
      EvRecv (req Stop (Status_lit Running accepts));
      EvInfo 1 "Litestream service stopped"; EvClose 0;
      EvSend (Status_lit StopPending 0);
      EvRecv (req Pause (Status_lit StopPending 0));
      EvInfo 1 "Litestream service paused"; EvClose 0;
      EvSend (Status_lit Paused accepts) ].
Proof. vm_compute. repeat split. Qed.

(** X2. [Execute] never returns, however long it runs and whatever the
    requests are, a [Stop] or a [Shutdown] among them or not; after
    enough steps it has read every request the host delivers, in the
    order of delivery, and waits for the next. *)
Lemma Execute_runs_for_ever (w : world) :
  (forall n, has_returned (run n Execute w) = false) /\
  (forall n, (7 * List.length (inbox w) + 5 <= n)%nat ->
     exists w', run n Execute w = Blocked w' /\ inbox w' = [] /\
                reads (trace w') = reads (trace w) ++ inbox w).
Proof.
  split; [intros n; apply Execute_never_returns|].
  intros n Hn. replace n with (4 + (n - 4))%nat by lia. rewrite run_Execute.
  destruct (loop_reads_all (inbox w) (fresh w)
              (record (EvSend (Status_lit Running accepts))
                 (record (EvRun (fresh w))
                    (allocate (record (EvSend (Status_lit StartPending 0)) w))))
              (n - 4)%nat eq_refl ltac:(lia)) as (w' & E & Hin & Hr).
  exists w'. repeat split; [exact E | exact Hin |].
  rewrite Hr. f_equal. spell_trace. rewrite reads_app, app_nil_r. reflexivity.
Qed.

(* ================================================================== *)
(** ** Start-up                                                        *)
(* ================================================================== *)

(** C10. However far [Execute] has got, its calls begin with the report
    of [StartPending] with no control accepted, then the making and the
    running of the command, then the report of [Running] with [accepts],
    in this order; no request is read before these four calls are done. *)
Theorem Execute_starts_with_StartPending (n : nat) (w : world) :
  exists rest,
    trace (world_of (run n Execute w)) =
      trace w
      ++ firstn n [ EvSend (Status_lit StartPending 0); EvNew (fresh w);
                    EvRun (fresh w); EvSend (Status_lit Running accepts) ]
      ++ rest /\
    ((n <= 4)%nat -> rest = []) /\
    (forall cmd, accepted (Accepts (Status_lit StartPending 0)) cmd = false) /\
    (forall cmd, accepted (Accepts (Status_lit Running accepts)) cmd = true <->
                 cmd = Stop \/ cmd = Shutdown \/ cmd = Pause \/ cmd = Continue).
Proof.
  assert (Hnone := accepted_none). assert (Hall := accepted_accepts).
  do 5 (destruct n as [|n];
        [exists []; split;
           [rewrite app_nil_r; unfold trace; cbn; rewrite <- ?app_assoc; reflexivity
           | auto]|]).
  change (S (S (S (S (S n))))) with (4 + S n)%nat. rewrite run_Execute.
  match goal with
  | |- context [run (S n) ?t ?w1] => destruct (run_trace (S n) t w1) as [rest Hrest]
  end.
  exists rest. split; [|split; [intros; lia | auto]].
  rewrite Hrest. spell_trace. reflexivity.
Qed.

(* ================================================================== *)
(** ** The text of [%d]                                                *)
(* ================================================================== *)

(** Evaluates [digit_value] at the characters of the goal. *)
Ltac read_digits :=
  repeat match goal with
         | |- context [digit_value ?a] =>
             let v := eval vm_compute in (digit_value a) in
             change (digit_value a) with v
         end;
  cbv iota.

Lemma digits_value_pos (u : Decimal.uint) :
  forall p, digits_value (NilEmpty.string_of_uint u) (Z.pos p) =
            Some (Z.pos (Pos.of_uint_acc u p)).
Proof.
  induction u; intros p;
    cbn [NilEmpty.string_of_uint digits_value Pos.of_uint_acc];
    [reflexivity|..]; read_digits;
    match goal with
    | |- digits_value _ ?z = Some (Z.pos (Pos.of_uint_acc _ ?q)) =>
        replace z with (Z.pos q) by lia
    end; apply IHu.
Qed.

Lemma digits_value_uint (u : Decimal.uint) :
  digits_value (NilEmpty.string_of_uint u) 0 = Some (Z.of_uint u).
Proof.
  unfold Z.of_uint.
  induction u;
    cbn [NilEmpty.string_of_uint digits_value Pos.of_uint Z.of_N];
    [reflexivity | read_digits; exact IHu | ..];
    read_digits; cbn [Z.mul Z.add]; rewrite digits_value_pos; reflexivity.
Qed.

(** The text [%d] gives for an integer reads back as that integer. *)
Lemma decimal_value_d (z : Z) : decimal_value (fmt.d z) = Some z.
Proof.
  rewrite <- (DecimalZ.of_to z) at 2. unfold fmt.d.
  destruct z as [|p|p]; cbn [Z.to_int NilZero.string_of_int Z.of_int].
  - reflexivity.
  - pose proof (DecimalPos.Unsigned.to_uint_nonnil p) as Hnn.
    destruct (Pos.to_uint p) eqn:E; [contradiction|..];
      cbn [NilZero.string_of_uint NilEmpty.string_of_uint decimal_value
           Ascii.eqb Bool.eqb andb];
      match goal with
      | |- _ = Some (Z.of_uint ?u) => exact (digits_value_uint u)
      end.
  - pose proof (DecimalPos.Unsigned.to_uint_nonnil p) as Hnn.
    destruct (Pos.to_uint p) eqn:E; [contradiction|..];
      cbn [NilZero.string_of_uint NilEmpty.string_of_uint decimal_value
           Ascii.eqb Bool.eqb];
      match goal with
      | |- _ = Some (- Z.of_uint ?u) =>
          pose proof (digits_value_uint u) as H;
          cbn [NilEmpty.string_of_uint] in H; rewrite H
      end; reflexivity.
Qed.

(* ================================================================== *)
(** ** The requests, one by one                                        *)
(* ================================================================== *)

Section Requests.

Variables (c : nat) (w : world) (r : ChangeRequest) (rs : list ChangeRequest).
Hypothesis Hin : inbox w = r :: rs.

(** C2, as the code has it. A [Stop] or [Shutdown] request at the head
    of the loop is handled in five steps, which are: the request is
    read, the event log is told, the command is closed, and only then,
    the close having come back, [StopPending] is reported.  The loop is
    then at its head again, with the same command. *)
Theorem Stop_reports_after_close :
  Cmd r = Stop \/ Cmd r = Shutdown ->
  exists w' msg,
    (forall n, run (5 + n) (Execute_loop c) w = run n (Execute_loop c) w') /\
    trace w' =
      trace w ++ [ EvRecv r; EvInfo 1 msg; EvClose c;
                   EvSend (Status_lit StopPending 0) ] /\
    inbox w' = rs.
Proof.
  intros [H|H]; eexists; eexists; (split; [intros n|]).
  - apply (turn_Stop n c w r rs Hin H).
  - spell_trace. split; reflexivity.
  - apply (turn_Shutdown n c w r rs Hin H).
  - spell_trace. split; reflexivity.
Qed.

(** C3, as the code has it. A [Pause] request closes the command and
    then reports [Paused] with the constant [accepts], the mask that
    goes with [Running] too: it lets Stop, Shutdown, Pause and Continue
    through, and nothing else. *)
Theorem Pause_reports_Paused :
  Cmd r = Pause ->
  exists w',
    (forall n, run (5 + n) (Execute_loop c) w = run n (Execute_loop c) w') /\
    trace w' =
      trace w ++ [ EvRecv r; EvInfo 1 "Litestream service paused"; EvClose c;
                   EvSend (Status_lit Paused accepts) ] /\
    (forall cmd, accepted (Accepts (Status_lit Paused accepts)) cmd = true <->
                 cmd = Stop \/ cmd = Shutdown \/ cmd = Pause \/ cmd = Continue).
Proof.
  intros H. eexists. split; [intros n; apply (turn_Pause n c w r rs Hin H)|].
  split; [spell_trace; reflexivity|].
  exact accepted_accepts.
Qed.

(** C6. An [Interrogate] request is answered with the status it
    carries; the loop goes on with the same command, no command is
    made, run or closed, and nothing else of the world changes. *)
Theorem Interrogate_echoes :
  Cmd r = Interrogate ->
  exists w',
    (forall n, run (4 + n) (Execute_loop c) w = run n (Execute_loop c) w') /\
    trace w' =
      trace w ++ [ EvRecv r; EvInfo 1 "Litestream service interrograted";
                   EvSend (CurrentStatus r) ] /\
    live (history w') = live (history w) /\
    filter worker_call (trace w') = filter worker_call (trace w) /\
    fresh w' = fresh w /\ output w' = output w /\ inbox w' = rs.
Proof.
  intros H. eexists. split; [intros n; apply (turn_Interrogate n c w r rs Hin H)|].
  split; [spell_trace; reflexivity|].
  repeat split.
  spell_trace. rewrite filter_app, app_nil_r. reflexivity.
Qed.

(** C7. A request whose code has no [case] is reported to the event
    log as an error whose text shows the code: after the words
    [unexpected control request #] and the opening brace come the digits
    of the code in decimal, ended by a space.  No status is reported, no
    command is touched, and the loop is at its head again, with the same
    command and the requests that follow. *)
Theorem unknown_request_is_logged :
~ known (Cmd r) ->
exists w' digits rest,
  (forall n, run (3 + n) (Execute_loop c) w = run n (Execute_loop c) w') /\
  trace w' =
    trace w ++ [ EvRecv r;
                 EvError 1 ("unexpected control request #{"
                            ++ digits ++ " " ++ rest)%string ] /\
  decimal_value digits = Some (Cmd r) /\
  reports (trace w') = reports (trace w) /\
  filter worker_call (trace w') = filter worker_call (trace w) /\
  live (history w') = live (history w) /\
  fresh w' = fresh w /\ output w' = output w /\ inbox w' = rs.
Proof.
  intros H. eexists. exists (fmt.d (Cmd r)). eexists.
  split; [intros n; apply (turn_default n c w r rs Hin H)|].
  split; [spell_trace; reflexivity|].
  split; [apply decimal_value_d|].
  repeat split.
  - spell_trace. rewrite reports_app, app_nil_r. reflexivity.
  - spell_trace. rewrite filter_app, app_nil_r. reflexivity.
Qed.

End Requests.

(** When the request carries the status reported last, as the requests
    of the dispatcher do, the answer to [Interrogate] repeats the report
    before it. *)
Lemma Interrogate_repeats_last_report (c : nat) (w : world)
      (r : ChangeRequest) (rs : list ChangeRequest) :
  inbox w = r :: rs ->
  Cmd r = Interrogate ->
  last_report (history w) = Some (CurrentStatus r) ->
  exists w',
    (forall n, run (4 + n) (Execute_loop c) w = run n (Execute_loop c) w') /\
    reports (trace w') = reports (trace w) ++ [CurrentStatus r] /\
    last_report (history w') = last_report (history w).
Proof.
  intros Hin H Hlast. eexists.
  split; [intros n; apply (turn_Interrogate n c w r rs Hin H)|].
  split.
  - spell_trace. rewrite reports_app. reflexivity.
  - cbn. symmetry. exact Hlast.
Qed.

Lemma Stop_reports_after_close_witness :
  exists w' msg,
    (forall n, run (5 + n) (Execute_loop 0)
                 (initial [req Shutdown (Status_lit Running accepts)]) =
               run n (Execute_loop 0) w') /\
    trace w' =
      trace (initial [req Shutdown (Status_lit Running accepts)])
      ++ [ EvRecv (req Shutdown (Status_lit Running accepts)); EvInfo 1 msg;
           EvClose 0; EvSend (Status_lit StopPending 0) ] /\
    inbox w' = [].
Proof.
  apply (Stop_reports_after_close 0
           (initial [req Shutdown (Status_lit Running accepts)])
           (req Shutdown (Status_lit Running accepts)) []);
    [reflexivity | right; reflexivity].
Defined.

Lemma Pause_reports_Paused_witness :
  exists w',
    (forall n, run (5 + n) (Execute_loop 0)
                 (initial [req Pause (Status_lit Running accepts)]) =
               run n (Execute_loop 0) w') /\
    trace w' =
      trace (initial [req Pause (Status_lit Running accepts)])
      ++ [ EvRecv (req Pause (Status_lit Running accepts));
           EvInfo 1 "Litestream service paused"; EvClose 0;
           EvSend (Status_lit Paused accepts) ] /\
    (forall cmd, accepted (Accepts (Status_lit Paused accepts)) cmd = true <->
                 cmd = Stop \/ cmd = Shutdown \/ cmd = Pause \/ cmd = Continue).
Proof.
  apply (Pause_reports_Paused 0
           (initial [req Pause (Status_lit Running accepts)])
           (req Pause (Status_lit Running accepts)) []);
    reflexivity.
Defined.

Lemma Interrogate_echoes_witness :
  exists w',
    (forall n, run (4 + n) (Execute_loop 0)
                 (initial [req Interrogate (Status_lit Paused accepts)]) =
               run n (Execute_loop 0) w') /\
    trace w' =
      trace (initial [req Interrogate (Status_lit Paused accepts)])
      ++ [ EvRecv (req Interrogate (Status_lit Paused accepts));
           EvInfo 1 "Litestream service interrograted";
           EvSend (Status_lit Paused accepts) ] /\
    live (history w') = [] /\
    filter worker_call (trace w') = [] /\
    fresh w' = 0%nat /\ output w' = os_Stderr /\ inbox w' = [].
Proof.
  apply (Interrogate_echoes 0
           (initial [req Interrogate (Status_lit Paused accepts)])
           (req Interrogate (Status_lit Paused accepts)) []);
    reflexivity.
Defined.

Lemma unknown_request_is_logged_witness :
  exists w' digits rest,
    (forall n, run (3 + n) (Execute_loop 0)
                 (initial [req 6 (Status_lit Running accepts)]) =
               run n (Execute_loop 0) w') /\
    trace w' =
      trace (initial [req 6 (Status_lit Running accepts)])
      ++ [ EvRecv (req 6 (Status_lit Running accepts));
           EvError 1 ("unexpected control request #{" ++ digits ++ " " ++ rest)%string ] /\
    decimal_value digits = Some 6 /\
    reports (trace w') = [] /\
    filter worker_call (trace w') = [] /\
    live (history w') = [] /\
    fresh w' = 0%nat /\ output w' = os_Stderr /\ inbox w' = [].
Proof.
  apply (unknown_request_is_logged 0
           (initial [req 6 (Status_lit Running accepts)])
           (req 6 (Status_lit Running accepts)) []);
    [reflexivity|].
  unfold known, Interrogate, Stop, Shutdown, Pause, Continue. simpl. lia.
Defined.

Example unknown_request_text :
  trace (world_of (run 8 Execute (initial [req 6 (Status_lit Running accepts)]))) =
  [ EvSend (Status_lit StartPending 0); EvNew 0; EvRun 0;
    EvSend (Status_lit Running accepts);
    EvRecv (req 6 (Status_lit Running accepts));
    EvError 1 "unexpected control request #{6 0 0 {4 7 0 0 0 0 0} 0}" ].
Proof. vm_compute. reflexivity. Qed.


Lemma before_cons_inv (a b ev : event) (tr : list event) :
  before a b (ev :: tr) -> (ev = a /\ In b tr) \/ before a b tr.
Proof.
  intros (l1 & l2 & l3 & E). destruct l1 as [|x l1]; simpl in E.
  - injection E as -> ->. left. split; [reflexivity|].
    apply in_or_app. right. left. reflexivity.
  - injection E as _ ->. right. exists l1, l2, l3. reflexivity.
Qed.

Lemma before_nil (a b : event) : ~ before a b [].
Proof. intros (l1 & l2 & l3 & E). destruct l1; discriminate E. Qed.

(** C2, as the claim has it, fails: when [Stop] is the only request,
    nothing is reported as [StopPending] before the close of the
    command; the close comes first. *)
Lemma StopPending_not_before_close :
  let tr := trace (world_of (run 9 Execute (initial [req Stop (Status_lit Running accepts)]))) in
  ~ before (EvSend (Status_lit StopPending 0)) (EvClose 0) tr /\
  before (EvClose 0) (EvSend (Status_lit StopPending 0)) tr.
Proof.
  cbv zeta. split.
  - intros H. vm_compute trace in H.
    repeat (apply before_cons_inv in H;
            destruct H as [[E I]|H];
            [ try discriminate E; simpl in I;
              repeat (destruct I as [I|I]; [discriminate I|]); exact I |]).
    exact (before_nil _ _ H).
  - vm_compute trace.
    eexists (_ :: _ :: _ :: _ :: _ :: _ :: []), [], []. reflexivity.
Qed.

(** C3, as the claim has it, fails: the mask reported with [Paused]
    lets Pause through. *)
Lemma Paused_report_accepts_Pause :
  reports (trace (world_of (run 10 Execute (initial [req Pause (Status_lit Running accepts)]))))
  = [ Status_lit StartPending 0; Status_lit Running accepts; Status_lit Paused accepts ] /\
  ~ (forall cmd, accepted (Accepts (Status_lit Paused accepts)) cmd = true <->
                 cmd = Continue \/ cmd = Stop \/ cmd = Shutdown).
Proof.
  split; [vm_compute; reflexivity|].
  intros H. destruct (H Pause) as [H1 _].
  specialize (H1 eq_refl). unfold Continue, Stop, Shutdown, Pause in H1. lia.
Qed.

(* ================================================================== *)
(** ** Pause, Interrogate, Continue, Stop                              *)
(* ================================================================== *)

(** C4, as the code has it. After the report of [StartPending] the
    reports are Running, Paused, Paused again for the interrogation,
    Running, StopPending; two commands are run; there are three closes,
    since Continue closes the command that Pause has closed already
    before it makes a new one. *)
Theorem pause_resume_stop_run (n : nat) :
  (26 <= n)%nat ->
  let r := run n Execute (initial pause_resume_stop) in
  r = Blocked (world_of r) /\
  reports (trace (world_of r)) =
    [ Status_lit StartPending 0; Status_lit Running accepts;
      Status_lit Paused accepts; Status_lit Paused accepts;
      Status_lit Running accepts; Status_lit StopPending 0 ] /\
  filter worker_call (trace (world_of r)) =
    [ EvNew 0; EvRun 0; EvClose 0; EvClose 0; EvNew 1; EvRun 1; EvClose 1 ] /\
  starts (trace (world_of r)) = 2%nat /\ closes (trace (world_of r)) = 3%nat /\
  from_dispatcher (history (world_of r)) = true.
Proof.
  intros Hn.
  assert (H26 : at_rest (run 26 Execute (initial pause_resume_stop)) = true)
    by (vm_compute; reflexivity).
  rewrite (run_at_rest 26 Execute (initial pause_resume_stop) n H26 Hn).
  vm_compute. repeat split.
Qed.

Lemma pause_resume_stop_run_witness :
  let r := run 30 Execute (initial pause_resume_stop) in
  r = Blocked (world_of r) /\
  reports (trace (world_of r)) =
    [ Status_lit StartPending 0; Status_lit Running accepts;
      Status_lit Paused accepts; Status_lit Paused accepts;
      Status_lit Running accepts; Status_lit StopPending 0 ] /\
  filter worker_call (trace (world_of r)) =
    [ EvNew 0; EvRun 0; EvClose 0; EvClose 0; EvNew 1; EvRun 1; EvClose 1 ] /\
  starts (trace (world_of r)) = 2%nat /\ closes (trace (world_of r)) = 3%nat /\
  from_dispatcher (history (world_of r)) = true.
Proof. apply (pause_resume_stop_run 30). lia. Defined.

(** C4, as the claim has it, fails: the closes are three, not two. *)
Lemma pause_resume_stop_closes :
  let tr := trace (world_of (run 26 Execute (initial pause_resume_stop))) in
  starts tr = 2%nat /\ closes tr = 3%nat /\ closes tr <> 2%nat.
Proof. vm_compute. repeat split. discriminate. Qed.

(* ================================================================== *)
(** ** The event log as a writer                                       *)
(* ================================================================== *)

(** C8. [Write p] makes one call, [Info] with event 1 and a text that
    has the bytes of [p], all of them and in their order, and returns 0
    with what the call returned, be it [nil] or an error; it makes no
    other call, before or after. *)
Theorem Write_submits_one_record (p : list byte) (w : world) (n : nat) :
  exists msg,
    list_byte_of_string msg = p /\
    run 1 (Write p) w = Pending (record (EvInfo 1 msg) w) /\
    run (2 + n) (Write p) w =
      Returned (0, answer w (history w)) (record (EvInfo 1 msg) w) /\
    trace (world_of (run (2 + n) (Write p) w)) = trace w ++ [EvInfo 1 msg].
Proof.
  exists (string_of_list_byte p).
  split; [apply list_byte_of_string_of_list_byte|].
  repeat split.
Qed.

Example Write_hello :
  run 2 (Write (list_byte_of_string "hello")) (initial []) =
  Returned (0, None) (record (EvInfo 1 "hello") (initial [])).
Proof. vm_compute. reflexivity. Qed.

Example Write_closed_sink :
  run 2 (Write (list_byte_of_string "hello")) closed_sink =
  Returned (0, Some "The handle is invalid.")
    (record (EvInfo 1 "hello") closed_sink).
Proof. vm_compute. reflexivity. Qed.

(* ================================================================== *)
(** ** The destination of the logger                                   *)
(* ================================================================== *)

(** C9, as the code has it. Nine steps end [runWindowsService], unless
    [svc.Run] does not come back.  When the event log cannot be opened
    the function returns the error of [eventlog.Open] and has not touched
    the logger.  Otherwise the event log is made the destination right
    after the opening, stays it until the end, and on each way out (the
    installation failed, [svc.Run] failed, [svc.Run] returned [nil]) the
    destination is set to [os.Stderr] and the log is closed, in this
    order; what the destination was before is not looked at. *)
Theorem runWindowsService_sets_Stderr (errStop : error) (n : nat) (w : world) :
  match run (9 + n) (runWindowsService errStop) w with
  | Returned err w' =>
      match answer w (history w) with
      | Some e =>
          err = Some e /\ output w' = output w /\
          trace w' = trace w ++ [EvOpen serviceName]
      | None =>
          output w' = os_Stderr /\
          exists mid,
            trace w' =
              trace w ++ [EvOpen serviceName; EvSetOutput eventlogWriter_elog]
              ++ mid ++ [EvSetOutput os_Stderr; EvElogClose] /\
            filter is_SetOutput mid = []
      end
  | Blocked w' =>
      svc_Run_returns w = false /\ output w' = eventlogWriter_elog /\
      trace w' =
        trace w ++ [ EvOpen serviceName; EvSetOutput eventlogWriter_elog;
                     EvInstall serviceName 7;
                     EvInfo 1 "Litestream service starting" ]
  | Pending _ => False
  end.
Proof.
  unfold runWindowsService, runWindowsService_body. cbn [Nat.add].
  destruct (answer w (history w)) as [e|] eqn:E1; cbn; rewrite E1; cbn.
  { auto. }
  match goal with
  | |- context [answer w ?h] => destruct (answer w h) as [e|] eqn:E2
  end; cbn.
  { split; [reflexivity|]. exists [EvInstall serviceName 7].
    split; [|reflexivity]. rewrite <- !app_assoc. reflexivity. }
  destruct (svc_Run_returns w) eqn:E3; cbn.
  2:{ repeat split. rewrite <- !app_assoc. reflexivity. }
  match goal with
  | |- context [answer w ?h] => destruct (answer w h) as [e|] eqn:E4
  end; cbn.
  - split; [reflexivity|].
    eexists [EvInstall serviceName 7; EvInfo 1 "Litestream service starting";
             EvSvcRun serviceName; EvError 1 _].
    split; [|reflexivity]. rewrite <- !app_assoc. reflexivity.
  - split; [reflexivity|].
    exists [EvInstall serviceName 7; EvInfo 1 "Litestream service starting";
            EvSvcRun serviceName; EvInfo 1 "Litestream service exited"].
    split; [|reflexivity]. rewrite <- !app_assoc. reflexivity.
Qed.

(** C9, as the claim has it, fails: a logger that wrote elsewhere writes
    to [os.Stderr] after [runWindowsService], not where it wrote before. *)
Lemma runWindowsService_forgets_destination :
  let r := run 9 (runWindowsService (Some "stop")) logging_elsewhere in
  has_returned r = true /\
  output logging_elsewhere = other_Writer 0 /\
  output (world_of r) = os_Stderr /\
  output (world_of r) <> output logging_elsewhere.
Proof. vm_compute. repeat split. discriminate. Qed.

(* ================================================================== *)
(** ** All the calls of [Execute]                                      *)
(* ================================================================== *)

Lemma branch_of_spec (cmd : Z) :
  match branch_of cmd with
  | OnInterrogate => cmd = Interrogate
  | OnStop => cmd = Stop
  | OnShutdown => cmd = Shutdown
  | OnPause => cmd = Pause
  | OnContinue => cmd = Continue
  | OnDefault => ~ known cmd
  end.
Proof.
  unfold branch_of, known.
  repeat match goal with
         | |- context [cmd =? ?k] => destruct (Z.eqb_spec cmd k); [assumption|]
         end.
  tauto.
Qed.

(** More fuel only adds calls. *)
Lemma run_mono {R} (n : nat) :
  forall (t : itree sysE R) (w : world) (m : nat), (n <= m)%nat ->
  exists l, history (world_of (run m t w)) = l ++ history (world_of (run n t w)).
Proof.
  induction n as [|n IH]; intros t w m Hle; [apply run_history|].
  destruct m as [|m]; [lia|]. simpl.
  destruct (observe t) as [r|t'|X e k].
  - exists []; reflexivity.
  - apply IH. lia.
  - destruct (handle e w) as [[x w']|]; [|exists []; reflexivity].
    apply IH. lia.
Qed.

Lemma run_trace_mono {R} (n m : nat) (t : itree sysE R) (w : world) :
  (n <= m)%nat ->
  exists l, trace (world_of (run m t w)) = trace (world_of (run n t w)) ++ l.
Proof.
  intros Hle. destruct (run_mono n t w m Hle) as [l H].
  exists (rev l). unfold trace. rewrite H, rev_app_distr. reflexivity.
Qed.

(** The loop, run long enough on the requests [rs], makes the calls
    [loop_trace rs] and waits. *)
Lemma run_loop_trace (rs : list ChangeRequest) :
  forall c w m, inbox w = rs -> (7 * List.length rs + 1 <= m)%nat ->
  exists w', run m (Execute_loop c) w = Blocked w' /\ inbox w' = [] /\
             trace w' = trace w ++ loop_trace rs c (fresh w) /\
             output w' = output w.
Proof.
  induction rs as [|r rs IH]; intros c w m Hin Hm.
  - destruct m as [|m]; [simpl in Hm; lia|].
    exists w. rewrite run_loop, Hin. cbn [loop_trace]. rewrite app_nil_r. auto.
  - cbn [List.length] in Hm. cbn [loop_trace]. unfold turn_trace, turn_next.
    pose proof (branch_of_spec (Cmd r)) as H.
    destruct (branch_of (Cmd r));
      [ replace m with (4 + (m - 4))%nat by lia;
        rewrite (turn_Interrogate _ c w r rs Hin H)
      | replace m with (5 + (m - 5))%nat by lia;
        rewrite (turn_Stop _ c w r rs Hin H)
      | replace m with (5 + (m - 5))%nat by lia;
        rewrite (turn_Shutdown _ c w r rs Hin H)
      | replace m with (5 + (m - 5))%nat by lia;
        rewrite (turn_Pause _ c w r rs Hin H)
      | replace m with (7 + (m - 7))%nat by lia;
        rewrite (turn_Continue _ c w r rs Hin H)
      | replace m with (3 + (m - 3))%nat by lia;
        rewrite (turn_default _ c w r rs Hin H) ];
      match goal with
      | |- exists w', run ?k (Execute_loop ?c1) ?w1 = _ /\ _ =>
          destruct (IH c1 w1 k eq_refl ltac:(lia)) as (w' & E & Hin' & Htr & Hout)
      end;
      exists w'; (split; [exact E|]); (split; [exact Hin'|]);
      (split; [|exact Hout]);
      rewrite Htr; spell_trace; reflexivity.
Qed.

Lemma run_Execute_trace (w : world) (m : nat) :
  (enough (inbox w) <= m)%nat ->
  exists w', run m Execute w = Blocked w' /\ inbox w' = [] /\
             trace w' = trace w ++ Execute_trace (inbox w) (fresh w) /\
             output w' = output w.
Proof.
  unfold enough. intros Hm.
  replace m with (4 + (m - 4))%nat by lia. rewrite run_Execute.
  match goal with
  | |- exists w', run ?k (Execute_loop ?c1) ?w1 = _ /\ _ =>
      destruct (run_loop_trace (inbox w) c1 w1 k eq_refl ltac:(lia))
        as (w' & E & Hin' & Htr & Hout)
  end.
  exists w'. split; [exact E|]. split; [exact Hin'|]. split; [|exact Hout].
  rewrite Htr. spell_trace. reflexivity.
Qed.

(** The calls made so far are a beginning of [Execute_trace], and all
    of it after [enough] steps. *)
Lemma Execute_calls_so_far (w : world) (n : nat) :
  exists l rest,
    trace (world_of (run n Execute w)) = trace w ++ l /\
    l ++ rest = Execute_trace (inbox w) (fresh w) /\
    ((enough (inbox w) <= n)%nat -> rest = []).
Proof.
  destruct (run_trace n Execute w) as [l Hl]. exists l.
  destruct (le_lt_dec (enough (inbox w)) n) as [Hle|Hlt].
  - destruct (run_Execute_trace w n Hle) as (w' & E & _ & Htr & _).
    exists []. split; [exact Hl|].
    rewrite E in Hl. cbn [world_of] in Hl. rewrite Htr in Hl.
    apply app_inv_head in Hl. rewrite app_nil_r. auto.
  - destruct (run_Execute_trace w (enough (inbox w)) (le_n _))
      as (w' & E & _ & Htr & _).
    destruct (run_trace_mono n (enough (inbox w)) Execute w ltac:(lia)) as [l' Hl'].
    exists l'. split; [exact Hl|]. split; [|intros; lia].
    rewrite E in Hl'. cbn [world_of] in Hl'.
    rewrite Htr, Hl, <- app_assoc in Hl'. apply app_inv_head in Hl'.
    symmetry. exact Hl'.
Qed.

(** X1. The calls of [Execute] are its four calls of start-up followed,
    for the requests in the order of their delivery, by the calls of the
    branch each request takes.  At any moment the calls made so far are
    the beginning of this sequence; after [enough] steps they are all of
    it, and [Execute] waits for a request, with none left unread. *)
Theorem Execute_makes_Execute_trace (w : world) (n : nat) :
  exists rest,
    trace (world_of (run n Execute w)) ++ rest =
      trace w ++ Execute_trace (inbox w) (fresh w) /\
    ((enough (inbox w) <= n)%nat ->
       rest = [] /\
       run n Execute w = Blocked (world_of (run n Execute w)) /\
       inbox (world_of (run n Execute w)) = []).
Proof.
  destruct (Execute_calls_so_far w n) as (l & rest & Hl & Hrest & Hend).
  exists rest. split; [rewrite Hl, <- app_assoc, Hrest; reflexivity|].
  intros Hle. split; [auto|].
  destruct (run_Execute_trace w n Hle) as (w' & E & Hin' & _).
  rewrite E. cbn [world_of]. auto.
Qed.

(* ================================================================== *)
(** ** What the host and the event log see                             *)
(* ================================================================== *)

Lemma reports_loop_trace (rs : list ChangeRequest) :
  forall c f, reports (loop_trace rs c f) = flat_map reply rs.
Proof.
  induction rs as [|r rs IH]; intros c f; [reflexivity|].
  cbn [loop_trace flat_map]. rewrite reports_app, IH. f_equal.
  unfold turn_trace, reply. destruct (branch_of (Cmd r)); reflexivity.
Qed.

(** X3. The reports [Execute] sends are [StartPending] and [Running],
    and then, for the requests in their order, one report for each
    request that has a [case], fixed by the request alone: the status
    the request carries for [Interrogate], [StopPending] for [Stop] and
    [Shutdown], [Paused] for [Pause], [Running] for [Continue], whatever
    was reported before; a request without a [case] gets none. *)
Theorem Execute_reports_by_request (w : world) (n : nat) :
  exists rest,
    reports (trace (world_of (run n Execute w))) ++ rest =
      reports (trace w)
      ++ Status_lit StartPending 0 :: Status_lit Running accepts
         :: flat_map reply (inbox w) /\
    ((enough (inbox w) <= n)%nat -> rest = []).
Proof.
  destruct (Execute_calls_so_far w n) as (l & rest & Hl & Hrest & Hend).
  exists (reports rest). split.
  - rewrite Hl, reports_app, <- app_assoc, <- reports_app, Hrest.
    unfold Execute_trace. rewrite reports_app, reports_loop_trace. reflexivity.
  - intros Hle. rewrite (Hend Hle). reflexivity.
Qed.

(** Counting the calls of a kind over the loop, when each turn has one
    or none of them. *)
Lemma count_loop_trace (p : event -> bool) (q : ChangeRequest -> bool) :
  (forall r c f,
     List.length (filter p (turn_trace r c f)) = if q r then 1%nat else 0%nat) ->
  forall rs c f,
    List.length (filter p (loop_trace rs c f)) = List.length (filter q rs).
Proof.
  intros Hturn. induction rs as [|r rs IH]; intros c f; [reflexivity|].
  cbn [loop_trace filter]. rewrite filter_app, length_app, IH, Hturn.
  destruct (q r); reflexivity.
Qed.

Lemma count_prefix (p : event -> bool) (l rest : list event) :
  (List.length (filter p l) <= List.length (filter p (l ++ rest)))%nat.
Proof. rewrite filter_app, length_app. lia. Qed.

Lemma starts_loop_trace (rs : list ChangeRequest) (c f : nat) :
  starts (loop_trace rs c f) = List.length (filter starting rs).
Proof.
  apply count_loop_trace. intros r c' f'.
  unfold turn_trace, starting. destruct (branch_of (Cmd r)); reflexivity.
Qed.

Lemma closes_loop_trace (rs : list ChangeRequest) (c f : nat) :
  closes (loop_trace rs c f) = List.length (filter closing rs).
Proof.
  apply count_loop_trace. intros r c' f'.
  unfold turn_trace, closing. destruct (branch_of (Cmd r)); reflexivity.
Qed.

(** X4. [Execute] runs a command once at start-up and once more for
    each [Continue] request, and closes the command of the loop once for
    each [Stop], [Shutdown], [Pause] and [Continue] request, whether that
    command is closed already or not.  Before all requests are handled
    the numbers are not greater. *)
Theorem Execute_counts_starts_and_closes (w : world) (n : nat) :
  exists l,
    trace (world_of (run n Execute w)) = trace w ++ l /\
    (starts l <= 1 + List.length (filter starting (inbox w)))%nat /\
    (closes l <= List.length (filter closing (inbox w)))%nat /\
    ((enough (inbox w) <= n)%nat ->
       starts l = (1 + List.length (filter starting (inbox w)))%nat /\
       closes l = List.length (filter closing (inbox w))).
Proof.
  destruct (Execute_calls_so_far w n) as (l & rest & Hl & Hrest & Hend).
  exists l. split; [exact Hl|].
  assert (Hs : starts (Execute_trace (inbox w) (fresh w)) =
               (1 + List.length (filter starting (inbox w)))%nat).
  { unfold Execute_trace, starts. rewrite filter_app, length_app.
    fold (starts (loop_trace (inbox w) (fresh w) (S (fresh w)))).
    rewrite starts_loop_trace. reflexivity. }
  assert (Hc : closes (Execute_trace (inbox w) (fresh w)) =
               List.length (filter closing (inbox w))).
  { unfold Execute_trace, closes. rewrite filter_app, length_app.
    fold (closes (loop_trace (inbox w) (fresh w) (S (fresh w)))).
    rewrite closes_loop_trace. reflexivity. }
  rewrite <- Hrest in Hs, Hc.
  split; [rewrite <- Hs; apply count_prefix|].
  split; [rewrite <- Hc; apply count_prefix|].
  intros Hle. rewrite (Hend Hle), app_nil_r in Hs, Hc. auto.
Qed.

Lemma filter_all {A} (l : list A) : filter (fun _ => true) l = l.
Proof. induction l as [|x l IH]; [reflexivity|]. simpl. rewrite IH. reflexivity. Qed.

(** X6. Once the requests are handled, the event log has got one entry
    from [Execute] for each request read, and as many of them are errors
    as there were requests without a [case]. *)
Theorem Execute_logs_each_request (w : world) (n : nat) :
  (enough (inbox w) <= n)%nat ->
  exists l,
    trace (world_of (run n Execute w)) = trace w ++ l /\
    List.length (filter is_elog l) = List.length (inbox w) /\
    List.length (filter is_elog_Error l) = List.length (filter defaulting (inbox w)).
Proof.
  intros Hle.
  destruct (run_Execute_trace w n Hle) as (w' & E & _ & Htr & _).
  exists (Execute_trace (inbox w) (fresh w)). rewrite E. cbn [world_of].
  split; [exact Htr|]. unfold Execute_trace. split.
  - rewrite filter_app, length_app.
    rewrite (count_loop_trace is_elog (fun _ => true)).
    + rewrite filter_all. reflexivity.
    + intros r c f. unfold turn_trace. destruct (branch_of (Cmd r)); reflexivity.
  - rewrite filter_app, length_app.
    rewrite (count_loop_trace is_elog_Error defaulting); [reflexivity|].
    intros r c f. unfold turn_trace, defaulting.
    destruct (branch_of (Cmd r)); reflexivity.
Qed.

Lemma Execute_logs_each_request_witness :
  exists l,
    trace (world_of (run 40 Execute (initial (req 6 (Status_lit Running accepts)
                                              :: pause_resume_stop)))) =
      trace (initial (req 6 (Status_lit Running accepts) :: pause_resume_stop)) ++ l /\
    List.length (filter is_elog l) = 5%nat /\
    List.length (filter is_elog_Error l) = 1%nat.
Proof.
  apply (Execute_logs_each_request
           (initial (req 6 (Status_lit Running accepts) :: pause_resume_stop)) 40).
  vm_compute. lia.
Defined.

(* ================================================================== *)
(** ** What [Execute] leaves alone                                     *)
(* ================================================================== *)

Lemma output_after_app (l1 l2 : list event) :
  forall d, output_after (l1 ++ l2) d = output_after l2 (output_after l1 d).
Proof.
  induction l1 as [|ev l1 IH]; intros d; [reflexivity|].
  destruct ev; simpl; apply IH.
Qed.

Lemma handle_output {T} (e : sysE T) (w w' : world) (x : T) :
  handle e w = Some (x, w') ->
  exists ev, history w' = ev :: history w /\
             output w' = output_after [ev] (output w).
Proof.
  destruct e; cbn [handle]; intros H;
    try (injection H as _ <-; eexists; split; reflexivity).
  - destruct (inbox w); [discriminate|].
    injection H as _ <-. eexists; split; reflexivity.
  - destruct (svc_Run_returns w); [|discriminate].
    injection H as _ <-. eexists; split; reflexivity.
Qed.

(** The destination of the logger is the one of the last
    [log.SetOutput] among the calls made, if there is one. *)
Lemma run_output {R} (n : nat) :
  forall (t : itree sysE R) (w : world),
  exists l, trace (world_of (run n t w)) = trace w ++ l /\
            output (world_of (run n t w)) = output_after l (output w).
Proof.
  induction n as [|n IH]; intros t w.
  { exists []. rewrite app_nil_r. split; reflexivity. }
  simpl. destruct (observe t) as [r|t'|X e k].
  - exists []. rewrite app_nil_r. split; reflexivity.
  - apply IH.
  - destruct (handle e w) as [[x w']|] eqn:E.
    + destruct (handle_output e w w' x E) as (ev & Hev & Hout).
      destruct (IH (k x) w') as (l & Hl & Ho).
      exists (ev :: l). split.
      * rewrite Hl. unfold trace. rewrite Hev. simpl.
        rewrite <- app_assoc. reflexivity.
      * rewrite Ho, Hout. symmetry. apply (output_after_app [ev] l).
    + exists []. rewrite app_nil_r. split; reflexivity.
Qed.

Lemma output_after_Execute_calls (l : list event) (d : Writer) :
  Forall Execute_call l -> output_after l d = d.
Proof.
  induction 1 as [|ev l Hev _ IH]; [reflexivity|].
  destruct ev; simpl in *; try exact IH; contradiction.
Qed.

Lemma loop_trace_Execute_calls (rs : list ChangeRequest) :
  forall c f, Forall Execute_call (loop_trace rs c f).
Proof.
  induction rs as [|r rs IH]; intros c f; [constructor|].
  cbn [loop_trace]. apply Forall_app. split; [|apply IH].
  unfold turn_trace. destruct (branch_of (Cmd r));
    repeat constructor.
Qed.

(** X7. Whatever the requests and however long it runs, [Execute] makes
    no other calls than receiving and sending on its two channels,
    writing to the event log, always with event 1, and making, running
    and closing replicate commands; it does not open, install or close
    the event log, and the destination of the logger stays what it was. *)
Theorem Execute_calls_only (w : world) (n : nat) :
  exists l,
    trace (world_of (run n Execute w)) = trace w ++ l /\
    Forall Execute_call l /\
    output (world_of (run n Execute w)) = output w.
Proof.
  destruct (Execute_calls_so_far w n) as (l & rest & Hl & Hrest & _).
  assert (Hall : Forall Execute_call l).
  { assert (H : Forall Execute_call (l ++ rest)).
    { rewrite Hrest. unfold Execute_trace. apply Forall_app. split.
      - repeat constructor.
      - apply loop_trace_Execute_calls. }
    apply Forall_app in H. tauto. }
  exists l. split; [exact Hl|]. split; [exact Hall|].
  destruct (run_output n Execute w) as (l' & Hl' & Ho).
  rewrite Hl in Hl'. apply app_inv_head in Hl'. subst l'.
  rewrite Ho. apply output_after_Execute_calls, Hall.
Qed.

(* ================================================================== *)
(** ** Which command is left live                                      *)
(* ================================================================== *)

Lemma loop_left_live (rs : list ChangeRequest) :
  forall c w m (b : bool), inbox w = rs -> (7 * List.length rs + 1 <= m)%nat ->
  live (history w) = (if b then [c] else []) ->
  exists w' c',
    run m (Execute_loop c) w = Blocked w' /\
    live (history w') = if left_live rs b then [c'] else [].
Proof.
  induction rs as [|r rs IH]; intros c w m b Hin Hm Hl.
  - destruct m as [|m]; [simpl in Hm; lia|].
    exists w, c. rewrite run_loop, Hin. auto.
  - cbn [List.length] in Hm. cbn [left_live]. unfold closing, starting.
    pose proof (branch_of_spec (Cmd r)) as H.
    destruct (branch_of (Cmd r));
      [ replace m with (4 + (m - 4))%nat by lia;
        rewrite (turn_Interrogate _ c w r rs Hin H)
      | replace m with (5 + (m - 5))%nat by lia;
        rewrite (turn_Stop _ c w r rs Hin H)
      | replace m with (5 + (m - 5))%nat by lia;
        rewrite (turn_Shutdown _ c w r rs Hin H)
      | replace m with (5 + (m - 5))%nat by lia;
        rewrite (turn_Pause _ c w r rs Hin H)
      | replace m with (7 + (m - 7))%nat by lia;
        rewrite (turn_Continue _ c w r rs Hin H)
      | replace m with (3 + (m - 3))%nat by lia;
        rewrite (turn_default _ c w r rs Hin H) ];
      (apply IH; [reflexivity | lia |]);
      cbn [history fresh record receive allocate live]; rewrite Hl;
      destruct b;
      repeat (progress (rewrite ?drop_live_self, ?add_live_self;
                        cbn [drop_live add_live filter existsb negb orb]));
      reflexivity.
Qed.

(** X5. Once the requests are handled, one replicate command is live
    when the last of the [Stop], [Shutdown], [Pause] and [Continue]
    requests was a [Continue], or when there was no such request, and
    none is live otherwise: a [Continue] brings the replication back
    also after a [Stop] or a [Shutdown]. *)
Theorem Execute_leaves_live (w : world) (n : nat) :
  history w = [] ->
  (enough (inbox w) <= n)%nat ->
  List.length (live (history (world_of (run n Execute w)))) =
  if left_live (inbox w) true then 1%nat else 0%nat.
Proof.
  unfold enough. intros H0 Hn.
  replace n with (4 + (n - 4))%nat by lia. rewrite run_Execute.
  match goal with
  | |- context [run ?k (Execute_loop ?c1) ?w1] =>
      destruct (loop_left_live (inbox w) c1 w1 k true eq_refl ltac:(lia))
        as (w' & c' & E & Hl)
  end.
  - cbn [history fresh record receive allocate live]. rewrite H0.
    cbn [live add_live existsb]. apply add_live_self.
  - rewrite E. cbn [world_of]. rewrite Hl.
    destruct (left_live (inbox w) true); reflexivity.
Qed.

Lemma Execute_leaves_live_witness :
  List.length
    (live (history (world_of
       (run 40 Execute
          (initial [ req Stop (Status_lit Running accepts);
                     req Continue (Status_lit StopPending 0) ]))))) = 1%nat.
Proof.
  apply (Execute_leaves_live
           (initial [ req Stop (Status_lit Running accepts);
                      req Continue (Status_lit StopPending 0) ]) 40).
  - reflexivity.
  - vm_compute. lia.
Defined.

(* ================================================================== *)
(** ** The ways through [runWindowsService]                            *)
(* ================================================================== *)

Lemma runWindowsService_by_case (errStop : error) (n : nat) (w : world) :
  match run (9 + n) (runWindowsService errStop) w with
  | Returned err w' =>
      match answer_Open w with
      | Some e =>
          err = Some e /\
          trace w' = trace w ++ [EvOpen serviceName]
      | None =>
          match answer_Install w with
          | Some e =>
              err = Some ("cannot install event log: " ++ e)%string /\
              trace w' =
                trace w ++ [ EvOpen serviceName; EvSetOutput eventlogWriter_elog;
                             EvInstall serviceName 7;
                             EvSetOutput os_Stderr; EvElogClose ]
          | None =>
              match answer_Run w with
              | Some e =>
                  err = errStop /\
                  trace w' =
                    trace w ++ [ EvOpen serviceName; EvSetOutput eventlogWriter_elog;
                                 EvInstall serviceName 7;
                                 EvInfo 1 "Litestream service starting";
                                 EvSvcRun serviceName;
                                 EvError 1 ("Litestream service failed: " ++ e)%string;
                                 EvSetOutput os_Stderr; EvElogClose ]
              | None =>
                  err = None /\
                  trace w' =
                    trace w ++ [ EvOpen serviceName; EvSetOutput eventlogWriter_elog;
                                 EvInstall serviceName 7;
                                 EvInfo 1 "Litestream service starting";
                                 EvSvcRun serviceName;
                                 EvInfo 1 "Litestream service exited";
                                 EvSetOutput os_Stderr; EvElogClose ]
              end
          end
      end
  | Blocked w' =>
      answer_Open w = None /\ answer_Install w = None /\ svc_Run_returns w = false /\
      trace w' =
        trace w ++ [ EvOpen serviceName; EvSetOutput eventlogWriter_elog;
                     EvInstall serviceName 7;
                     EvInfo 1 "Litestream service starting" ]
  | Pending _ => False
  end.
Proof.
  unfold answer_Run, answer_Install, answer_Open.
  unfold runWindowsService, runWindowsService_body. cbn [Nat.add].
  destruct (answer w (history w)) as [e|] eqn:E1; cbn; rewrite E1; cbn.
  { auto. }
  match goal with
  | |- context [answer w ?h] => destruct (answer w h) as [e|] eqn:E2
  end; cbn.
  { split; [reflexivity|]. rewrite <- !app_assoc. reflexivity. }
  destruct (svc_Run_returns w) eqn:E3; cbn.
  2:{ repeat split. rewrite <- !app_assoc. reflexivity. }
  match goal with
  | |- context [answer w ?h] => destruct (answer w h) as [e|] eqn:E4
  end; cbn; (split; [reflexivity|]); rewrite <- !app_assoc; reflexivity.
Qed.

(** X8. The error [runWindowsService] returns: the error of
    [eventlog.Open] as it is; else the error of the installation behind
    the words [cannot install event log: ]; else, when [svc.Run] fails,
    [errStop] and not the error of [svc.Run], which goes to the event
    log only; else [nil].  It returns within nine steps unless [svc.Run]
    does not come back. *)
Theorem runWindowsService_error (errStop : error) (n : nat) (w : world) :
  match run (9 + n) (runWindowsService errStop) w with
  | Returned err _ =>
      err =
      match answer_Open w, answer_Install w, answer_Run w with
      | Some e, _, _ => Some e
      | None, Some e, _ => Some ("cannot install event log: " ++ e)%string
      | None, None, Some _ => errStop
      | None, None, None => None
      end
  | Blocked _ => answer_Open w = None /\ answer_Install w = None /\ svc_Run_returns w = false
  | Pending _ => False
  end.
Proof.
  pose proof (runWindowsService_by_case errStop n w) as H.
  destruct (run (9 + n) (runWindowsService errStop) w) as [err w'|w'|w'];
    [|tauto|exact H].
  destruct (answer_Open w); [tauto|]. destruct (answer_Install w); [tauto|].
  destruct (answer_Run w); tauto.
Qed.

(** X9. The calls of [runWindowsService], by what the libraries answer.
    The event log is opened first and once; it is closed if and only if
    the opening succeeded, once, as the last call; [svc.Run] is called
    only after the installation has succeeded and the start has been
    logged, and once; its failure is logged as an error with the text of
    the failure, its success as [Litestream service exited]. *)
Theorem runWindowsService_calls (errStop : error) (n : nat) (w : world) :
  match run (9 + n) (runWindowsService errStop) w with
  | Returned _ w' =>
      trace w' =
      trace w ++
      match answer_Open w, answer_Install w, answer_Run w with
      | Some _, _, _ => [ EvOpen serviceName ]
      | None, Some _, _ =>
          [ EvOpen serviceName; EvSetOutput eventlogWriter_elog;
            EvInstall serviceName 7; EvSetOutput os_Stderr; EvElogClose ]
      | None, None, Some e =>
          [ EvOpen serviceName; EvSetOutput eventlogWriter_elog;
            EvInstall serviceName 7; EvInfo 1 "Litestream service starting";
            EvSvcRun serviceName;
            EvError 1 ("Litestream service failed: " ++ e)%string;
            EvSetOutput os_Stderr; EvElogClose ]
      | None, None, None =>
          [ EvOpen serviceName; EvSetOutput eventlogWriter_elog;
            EvInstall serviceName 7; EvInfo 1 "Litestream service starting";
            EvSvcRun serviceName; EvInfo 1 "Litestream service exited";
            EvSetOutput os_Stderr; EvElogClose ]
      end
  | Blocked w' =>
      trace w' =
        trace w ++ [ EvOpen serviceName; EvSetOutput eventlogWriter_elog;
                     EvInstall serviceName 7;
                     EvInfo 1 "Litestream service starting" ]
  | Pending _ => False
  end.
Proof.
  pose proof (runWindowsService_by_case errStop n w) as H.
  destruct (run (9 + n) (runWindowsService errStop) w) as [err w'|w'|w'];
    [|tauto|exact H].
  destruct (answer_Open w); [tauto|]. destruct (answer_Install w); [tauto|].
  destruct (answer_Run w); tauto.
Qed.

(* ================================================================== *)
(** ** The command of the loop                                         *)
(* ================================================================== *)

Lemma made_last_prefix (l rest : list event) :
  forall made, made_last made (l ++ rest) -> made_last made l.
Proof.
  induction l as [|ev l IH]; intros made H; [exact I|].
  destruct ev; simpl in *; try (apply IH; exact H);
    (split; [tauto | apply IH; tauto]).
Qed.

Lemma loop_trace_made_last (rs : list ChangeRequest) :
  forall c f, made_last (Some c) (loop_trace rs c f).
Proof.
  induction rs as [|r rs IH]; intros c f; [exact I|].
  cbn [loop_trace]. unfold turn_trace, turn_next.
  destruct (branch_of (Cmd r)); cbn; repeat split; apply IH.
Qed.

(** X10. Whatever the requests and however long it runs, [Execute]
    runs and closes no other command than the one it has made last: a
    command that [Continue] has replaced is never touched again. *)
Theorem Execute_touches_last_command (w : world) (n : nat) :
  exists l,
    trace (world_of (run n Execute w)) = trace w ++ l /\
    made_last None l.
Proof.
  destruct (Execute_calls_so_far w n) as (l & rest & Hl & Hrest & _).
  exists l. split; [exact Hl|].
  apply (made_last_prefix l rest). rewrite Hrest.
  unfold Execute_trace. cbn. split; [reflexivity|].
  apply loop_trace_made_last.
Qed.
